(** * Webpage screenshot data source: URL preprocessing and capture loop

    Shallow embedding of
    [datasources/url_screenshots/search_webpage_screenshots.py]
    (class [ScreenshotWithSelenium]): [validate_query], [filename_from_url]
    and the capture loop of [get_items].

    Text is modelled as [string], read as a sequence of code points below
    256.  Python's built-in string methods and the one regular expression of
    the module are embedded as functions on [string]. *)

From Stdlib Require Import List String Ascii Bool Arith ZArith Lia ListSet.
From Stdlib Require Import DecimalString.
Import ListNotations.

Open Scope string_scope.

(** ** Python string methods *)

Module PyStr.

(** [s.startswith(p)], returning what follows the prefix. *)
Fixpoint strip_prefix (p s : string) : option string :=
  match p, s with
  | EmptyString, _ => Some s
  | String a p', String b s' =>
      if Ascii.eqb a b then strip_prefix p' s' else None
  | String _ _, EmptyString => None
  end.

Definition startswith (p s : string) : bool :=
  match strip_prefix p s with Some _ => true | None => false end.

(** [sub in s] for a constant, non-empty [sub]. *)
Fixpoint contains (sub s : string) : bool :=
  (startswith sub s ||
   match s with
   | EmptyString => false
   | String _ s' => contains sub s'
   end)%bool.

Fixpoint drop (n : nat) (s : string) : string :=
  match n, s with
  | S k, String _ s' => drop k s'
  | _, _ => s
  end.

(** Whether every character of [s] satisfies [p]. *)
Fixpoint all (p : ascii -> bool) (s : string) : bool :=
  match s with
  | EmptyString => true
  | String c s' => (p c && all p s')%bool
  end.

(** [s.split(sep)] for a non-empty [sep]: the scan is left to right and, once
    a separator is found, resumes after it.  [skip] counts the characters of
    the separator still to pass over; [cur] holds the current piece,
    reversed. *)
Fixpoint rev_string (acc s : string) : string :=
  match s with
  | EmptyString => acc
  | String c s' => rev_string (String c acc) s'
  end.

Fixpoint split_aux (sep : string) (skip : nat) (cur s : string) : list string :=
  match s with
  | EmptyString => [rev_string "" cur]
  | String c s' =>
      match skip with
      | S k => split_aux sep k cur s'
      | O =>
          if startswith sep s
          then rev_string "" cur :: split_aux sep (String.length sep - 1) "" s'
          else split_aux sep 0 (String c cur) s'
      end
  end.

Definition split (sep s : string) : list string := split_aux sep 0 "" s.

(** [s.replace(old, new)] for a non-empty [old], by the same scan. *)
Fixpoint replace_aux (old new : string) (skip : nat) (s : string) : string :=
  match s with
  | EmptyString => ""
  | String c s' =>
      match skip with
      | S k => replace_aux old new k s'
      | O =>
          if startswith old s
          then new ++ replace_aux old new (String.length old - 1) s'
          else String c (replace_aux old new 0 s')
      end
  end.

Definition replace (old new s : string) : string := replace_aux old new 0 s.

(** [str.isspace] on the code points below 256. *)
Definition isspace (c : ascii) : bool :=
  let n := nat_of_ascii c in
  (((9 <=? n) && (n <=? 13)) || ((28 <=? n) && (n <=? 32))
   || (n =? 133) || (n =? 160))%nat%bool.

Fixpoint lstrip (p : ascii -> bool) (s : string) : string :=
  match s with
  | EmptyString => ""
  | String c s' => if p c then lstrip p s' else s
  end.

(** The right strip keeps a character when it, or anything after it, is kept. *)
Fixpoint rstrip (p : ascii -> bool) (s : string) : string :=
  match s with
  | EmptyString => ""
  | String c s' =>
      match rstrip p s' with
      | EmptyString => if p c then "" else String c ""
      | r => String c r
      end
  end.

(** [s.strip()] and [s.strip(chars)]. *)
Definition strip_by (p : ascii -> bool) (s : string) : string :=
  rstrip p (lstrip p s).

Definition strip (s : string) : string := strip_by isspace s.

Definition strip_chars (chars : list ascii) (s : string) : string :=
  strip_by (fun c => existsb (Ascii.eqb c) chars) s.

(** [sep.join(l)]. *)
Definition join (sep : string) (l : list string) : string :=
  String.concat sep l.

(** ["%i" % n] for a natural number. *)
Definition fmt_i (n : nat) : string := NilEmpty.string_of_uint (Nat.to_uint n).

End PyStr.

(** ** The regular expression [archive\.org/web/([0-9]+)/] *)

Module ArchiveRe.

Import PyStr.

Definition literal : string := "archive.org/web/".

Definition is_digit (c : ascii) : bool :=
  ((48 <=? nat_of_ascii c) && (nat_of_ascii c <=? 57))%nat%bool.

(** The longest run of digits at the head of [s], and what follows it. *)
Fixpoint span_digits (s : string) : string * string :=
  match s with
  | EmptyString => ("", "")
  | String c s' =>
      if is_digit c
      then let (d, r) := span_digits s' in (String c d, r)
      else ("", s)
  end.

(** A match anchored at the head of [s]: the literal, one or more digits, a
    slash.  The result is the digits (group 1) and the text after the match.
    [[0-9]+] is greedy; giving back digits never helps, since the slash would
    then have to match a digit, so the longest run decides.  The pattern is
    ASCII, so the scan is the same on the UTF-8 encoding of any text. *)
Definition match_at (s : string) : option (string * string) :=
  match strip_prefix literal s with
  | None => None
  | Some t =>
      let (d, r) := span_digits t in
      match d, r with
      | String _ _, String x r' =>
          if Ascii.eqb x "/" then Some (d, r') else None
      | _, _ => None
      end
  end.

(** Length of the match at the head, when there is one. *)
Definition match_length (d : string) : nat :=
  String.length literal + String.length d + 1.

(** [re.findall(r"archive\.org/web/[0-9]+/", s)]: the matched texts, left to
    right, without overlap.  [skip] counts characters of the current match
    still to pass over. *)
Fixpoint findall_aux (skip : nat) (s : string) : list string :=
  match s with
  | EmptyString => []
  | String c s' =>
      match skip with
      | S k => findall_aux k s'
      | O =>
          match match_at s with
          | Some (d, _) =>
              (literal ++ d ++ "/") :: findall_aux (match_length d - 1) s'
          | None => findall_aux 0 s'
          end
      end
  end.

Definition findall (s : string) : list string := findall_aux 0 s.

(** [re.sub(r"archive\.org/web/([0-9]+)/", "archive.org/web/\\1if_/", s)]. *)
Fixpoint sub_aux (skip : nat) (s : string) : string :=
  match s with
  | EmptyString => ""
  | String c s' =>
      match skip with
      | S k => sub_aux k s'
      | O =>
          match match_at s with
          | Some (d, _) =>
              "archive.org/web/" ++ d ++ "if_/"
                ++ sub_aux (match_length d - 1) s'
          | None => String c (sub_aux 0 s')
          end
      end
  end.

Definition sub (s : string) : string := sub_aux 0 s.

(** Two notions for reasoning on the scan: a character other than [a], with
    which no match begins, and what may follow a run of digits, the end of
    the text or a character that is not a digit. *)
Definition not_a (c : ascii) : bool := negb (Ascii.eqb c "a").

Definition ends_run (r : string) : Prop :=
  match r with
  | EmptyString => True
  | String c _ => is_digit c = false
  end.

End ArchiveRe.

(** ** Exceptions and results *)

Inductive exn : Type :=
| QueryParametersException (msg : string)
| ProcessorInterruptedException (msg : string)
| IndexError.

Inductive result (A : Type) : Type :=
| Ok (a : A)
| Raise (e : exn).
Arguments Ok {A} a.
Arguments Raise {A} e.

Definition bind {A B : Type} (r : result A) (k : A -> result B) : result B :=
  match r with
  | Ok a => k a
  | Raise e => Raise e
  end.

Notation "x <- r ;; k" := (bind r (fun x => k))
  (at level 61, r at next level, right associativity).

(** [l[i]]: an [IndexError] out of range. *)
Definition item {A : Type} (l : list A) (i : nat) : result A :=
  match nth_error l i with
  | Some a => Ok a
  | None => Raise IndexError
  end.

(** ** What the module imports

    [ural], [common.lib.helpers] and the configuration are outside this
    file; the module only calls them. *)

Class Library : Type := {
  (** [ural.is_url(url, require_protocol=True, tld_aware=True,
      only_http_https=True, allow_spaces_in_path=False)] *)
  is_url : string -> bool;
  (** [str(ural.get_domain_name(url))], as the f-string formats it *)
  get_domain_name : string -> string;
  (** [common.lib.helpers.url_to_hash] *)
  url_to_hash : string -> string;
  (** [common.lib.helpers.convert_to_int] *)
  convert_to_int : string -> Z -> Z;
  (** [config.get("selenium.max_sites", user=user)] *)
  max_sites : Z
}.

(** ** validate_query *)

(** The [query] dictionary: its ["query"] entry and the other entries. *)
Record query : Type := {
  q_query : option string;
  q_rest : list (string * string)
}.

Record safe_query : Type := {
  sq_query : list string;
  sq_rest : list (string * string)
}.

Definition newline : string := String (ascii_of_nat 10) "".

Definition fmt_Z (z : Z) : string := NilEmpty.string_of_int (Z.to_int z).

Section Preprocessor.

Context `{Library}.

(** Lines 255-256: the body of the toolbar-remover loop. *)
Definition detoolbar (url : string) : string :=
  match ArchiveRe.findall url with
  | [] => url
  | _ :: _ => ArchiveRe.sub url
  end.

(** Lines 253-258: the loop, appending to [detoolbarred_urls]. *)
Fixpoint detoolbar_loop (preprocessed_urls detoolbarred_urls : list string)
  : list string :=
  match preprocessed_urls with
  | [] => detoolbarred_urls
  | url :: rest => detoolbar_loop rest (detoolbarred_urls ++ [detoolbar url])
  end.

(** Line 244. *)
Definition split_urls (raw : string) : list string :=
  map PyStr.strip (PyStr.split "," (PyStr.replace newline "," raw)).

Definition too_many_message : string :=
  "You cannot collect more than " ++ fmt_Z max_sites
  ++ " screenshots per dataset. If you have more URLs, consider limiting your dataset first by either decreasing the resolution (i.e. fewer screenshots per year) or the length of the dataset (i.e. covering a shorter period of time).".

Definition validate_query (q : query) : result safe_query :=
  match q_query q with
  | None | Some EmptyString =>
      Raise (QueryParametersException "Please provide a List of urls.")
  | Some raw =>
      let urls := split_urls raw in
      let preprocessed_urls := filter is_url urls in
      if (Z.of_nat (List.length preprocessed_urls) >? max_sites)%Z
      then Raise (QueryParametersException too_many_message)
      else
        let preprocessed_urls := detoolbar_loop preprocessed_urls [] in
        match preprocessed_urls with
        | [] =>
            Raise (QueryParametersException
                     "No valid URLs provided - please enter one valid URL per line.")
        | _ :: _ =>
            Ok {| sq_query := preprocessed_urls; sq_rest := q_rest q |}
        end
  end.

(** The text of the ["query"] entry, empty when the entry is missing, and
    the URLs of it that pass [is_url]. *)
Definition raw_text (q : query) : string :=
  match q_query q with
  | Some raw => raw
  | None => ""
  end.

Definition survivors (q : query) : list string :=
  filter is_url (split_urls (raw_text q)).

(** ** filename_from_url

    [now] is [datetime.datetime.now().strftime("%Y%m%d%H%M%S")].  The
    indexing of the pieces raises [IndexError] when a piece is missing. *)
Definition filename_from_url (now : string) (url : string) : result string :=
  let url_hash := url_to_hash url in
  let domain := get_domain_name url in
  let timestamp := now in
  if PyStr.contains "web.archive.org/web/" url then
    after <- item (PyStr.split "web.archive.org/web/" url) 1 ;;
    stamp <- item (PyStr.split "/" after) 0 ;;
    let timestamp := PyStr.replace "if_" "" stamp in
    after' <- item (PyStr.split "web.archive.org/web/" url) 1 ;;
    archived <- item (PyStr.split "://" after') 1 ;;
    host <- item (PyStr.split "/" archived) 0 ;;
    let domain := PyStr.strip_chars ["/"%char] host ++ "-archived" in
    Ok (domain ++ "-" ++ timestamp ++ "-" ++ url_hash)
  else
    Ok (domain ++ "-" ++ timestamp ++ "-" ++ url_hash).

End Preprocessor.

(** ** The capture loop of get_items *)

(** The browser, the clock, the job object and the file system behind them
    are one [World], threaded through the calls the loop makes.  An
    [option string] result is [Some (str e)] when the call raised [e]; the
    loop catches exceptions of [driver.get] and [save_screenshot] only, the
    other calls, [os.setxattr] among them, are taken to return.  Calls to [dataset.log],
    [update_status] and [update_progress] write to sinks that the loop never
    reads and are left out. *)
Class Selenium (World : Type) : Type := {
  (** [self.interrupted] *)
  interrupted : World -> bool;
  (** [datetime.datetime.now().strftime("%Y%m%d%H%M%S")] *)
  now_strftime : World -> string;
  (** [int(datetime.datetime.now().timestamp())] *)
  now_timestamp : World -> Z;
  enable_firefox_extension : World -> World;
  reset_current_page : World -> World;
  (** [self.driver.get(url)] *)
  driver_get : string -> World -> option string * World;
  restart_selenium : World -> World;
  (** [self.scroll_down_page_to_load(max_time=wait)] *)
  scroll_down_page_to_load : Z -> World -> World;
  (** the polling of [document.readyState] until [wait] seconds passed *)
  wait_until_complete : Z -> World -> World;
  check_for_movement : World -> bool * World;
  (** [time.sleep(pause)] *)
  sleep : Z -> World -> World;
  (** [self.save_screenshot(path, width=, height=, viewport_only=)] *)
  save_screenshot :
    string -> Z -> option Z -> bool -> World -> option string * World;
  (** [os.setxattr(path, 'user.url', url.encode())], where [os] has it *)
  setxattr_url : string -> string -> World -> World;
  (** [self.driver.current_url] *)
  current_url : World -> string;
  (** [self.driver.title] *)
  title : World -> string
}.

(** [self.parameters]. *)
Record parameters : Type := {
  ignore_cookies : bool;
  capture : string;
  resolution : string;
  pause : Z;
  wait : Z
}.

(** One entry of [metadata], as written at line 213. *)
Record CaptureResult : Type := {
  url : string;
  filename : string;
  timestamp : option Z;
  error : string;
  final_url : option string;
  subject : option string
}.

(** A Python [dict] with string keys: insertion order, one entry per key. *)
Fixpoint dict_set {V : Type} (k : string) (v : V) (d : list (string * V))
  : list (string * V) :=
  match d with
  | [] => [(k, v)]
  | (k', v') :: d' =>
      if String.eqb k k' then (k, v) :: d' else (k', v') :: dict_set k v d'
  end.

Fixpoint dict_get {V : Type} (k : string) (d : list (string * V)) : option V :=
  match d with
  | [] => None
  | (k', v') :: d' => if String.eqb k k' then Some v' else dict_get k d'
  end.

Definition keys {V : Type} (d : list (string * V)) : list string :=
  map fst d.

(** The staging area: the names under which [save_screenshot] saved an
    image, in the order of the saves, and, once written, [.metadata.json].
    A name saved to twice is listed twice; the directory then holds the later
    file under it. *)
Record staging_area : Type := {
  images : list string;
  metadata_json : option (list (string * CaptureResult))
}.

Section CaptureLoop.

Context `{Library}.
Context {World : Type} `{Selenium World}.

(** The variables of [get_items] that live across iterations.  [nav_log] is
    not a variable of the program: it records every call of
    [self.driver.get], as the URL and the attempt number. *)
Record state : Type := {
  screenshots : nat;
  done : nat;
  scraped_urls : set string;
  metadata : list (string * CaptureResult);
  staging : staging_area;
  world : World;
  nav_log : list (string * nat)
}.

Definition with_world (w : World) (st : state) : state :=
  {| screenshots := screenshots st; done := done st;
     scraped_urls := scraped_urls st; metadata := metadata st;
     staging := staging st; world := w; nav_log := nav_log st |}.

Definition log_nav (u : string) (n : nat) (st : state) : state :=
  {| screenshots := screenshots st; done := done st;
     scraped_urls := scraped_urls st; metadata := metadata st;
     staging := staging st; world := world st;
     nav_log := nav_log st ++ [(u, n)] |}.

(** Lines 186 and 197 on success: the file is in the staging area and
    [screenshots += 1]. *)
Definition saved (file : string) (w : World) (st : state) : state :=
  {| screenshots := screenshots st + 1; done := done st;
     scraped_urls := scraped_urls st; metadata := metadata st;
     staging := {| images := images (staging st) ++ [file];
                   metadata_json := metadata_json (staging st) |};
     world := w; nav_log := nav_log st |}.

Variable p : parameters.

Definition width : Z :=
  convert_to_int (nth 0 (PyStr.split "x" (resolution p)) "") 1024.

Definition height : option Z :=
  if String.eqb (capture p) "viewport"
  then Some (convert_to_int (last (PyStr.split "x" (resolution p)) "") 786)
  else None.

Definition attempt_error (attempts : nat) (e : string) : string :=
  "Attempt " ++ PyStr.fmt_i attempts ++ ": " ++ e.

(** Lines 157-202: [while attempts < 2].  The result is [success], the list
    [result['error']] and the state at line 204.  Each iteration adds one to
    [attempts], so two units of [fuel] from [attempts = 0] reach the exit of
    the loop. *)
Fixpoint capture_attempts (fuel : nat) (u file : string) (attempts : nat)
  (errors : list string) (st : state) : bool * list string * state :=
  match fuel with
  | O => (false, errors, st)
  | S fuel' =>
      if (attempts <? 2)%nat then
        let attempts := attempts + 1 in
        let w := reset_current_page (world st) in
        let (raised, w) := driver_get u w in
        let st := log_nav u attempts st in
        match raised with
        | Some e =>
            let w := restart_selenium w in
            capture_attempts fuel' u file attempts
              (errors ++ [attempt_error attempts e]) (with_world w st)
        | None =>
            let w :=
              if String.eqb (capture p) "all"
              then scroll_down_page_to_load (wait p) w
              else wait_until_complete (wait p) w in
            let (moved, w) := check_for_movement w in
            if moved then
              let w := if (pause p =? 0)%Z then w else sleep (pause p) w in
              let (raised, w) :=
                save_screenshot file width height
                  (String.eqb (capture p) "viewport") w in
              match raised with
              | Some e =>
                  capture_attempts fuel' u file attempts
                    (errors ++ [attempt_error attempts e]) (with_world w st)
              | None =>
                  let w := setxattr_url file u w in
                  (true, errors, saved file w st)
              end
            else
              capture_attempts fuel' u file attempts
                (errors ++ ["Driver was not able to navigate to page"])
                (with_world w st)
        end
      else (false, errors, st)
  end.

(** Lines 204-210: the entry for [u], from the outcome of the attempts. *)
Definition freeze (u file : string) (success : bool) (errors : list string)
  (w : World) : CaptureResult :=
  {| url := u;
     filename := file;
     timestamp := Some (now_timestamp w);
     error := PyStr.join ", " errors;
     final_url := if success then Some (current_url w) else None;
     subject := if success then Some (title w) else None |}.

Definition skip_duplicate (st : state) : state :=
  {| screenshots := screenshots st; done := done st + 1;
     scraped_urls := scraped_urls st; metadata := metadata st;
     staging := staging st; world := world st; nav_log := nav_log st |}.

Definition mark_scraped (u : string) (st : state) : state :=
  {| screenshots := screenshots st; done := done st;
     scraped_urls := set_add string_dec u (scraped_urls st);
     metadata := metadata st; staging := staging st; world := world st;
     nav_log := nav_log st |}.

Definition record_result (u : string) (r : CaptureResult) (st : state) : state :=
  {| screenshots := screenshots st; done := done st + 1;
     scraped_urls := scraped_urls st;
     metadata := dict_set u r (metadata st);
     staging := staging st; world := world st; nav_log := nav_log st |}.

(** An exception leaves the loop with the state as it was when raised. *)
Inductive outcome : Type :=
| Returned (st : state)
| Raised (e : exn) (st : state).

(** Lines 145-202 for a URL not scraped before: the state at line 204, with
    the outcome of the attempts. *)
Definition attempt_url (u : string) (st : state)
  : result (string * bool * list string * state) :=
  let st := mark_scraped u st in
  name <- filename_from_url (now_strftime (world st)) u ;;
  let file := name ++ ".png" in
  let '(success, errors, st) := capture_attempts 2 u file 0 [] st in
  Ok (file, success, errors, st).

(** Lines 132-214: one iteration of [while urls_to_scrape], for the URL
    popped from the list. *)
Definition iteration (u : string) (st : state) : outcome :=
  if interrupted (world st) then
    Raised (ProcessorInterruptedException "Interrupted while making screenshots") st
  else if set_mem string_dec u (scraped_urls st) then
    Returned (skip_duplicate st)
  else
    match attempt_url u st with
    | Raise e => Raised e (mark_scraped u st)
    | Ok (file, success, errors, st') =>
        Returned
          (record_result u (freeze u file success errors (world st')) st')
    end.

(** Lines 131-214. *)
Fixpoint capture_loop (urls_to_scrape : list string) (st : state) : outcome :=
  match urls_to_scrape with
  | [] => Returned st
  | u :: rest =>
      match iteration u st with
      | Returned st' => capture_loop rest st'
      | Raised e st' => Raised e st'
      end
  end.

(** Lines 124-129, with the fresh staging area of line 116. *)
Definition initial (w : World) : state :=
  {| screenshots := 0; done := 0; scraped_urls := empty_set string;
     metadata := []; staging := {| images := []; metadata_json := None |};
     world := w; nav_log := [] |}.

(** Lines 216-217. *)
Definition write_metadata (st : state) : state :=
  {| screenshots := screenshots st; done := done st;
     scraped_urls := scraped_urls st; metadata := metadata st;
     staging := {| images := images (staging st);
                   metadata_json := Some (metadata st) |};
     world := world st; nav_log := nav_log st |}.

Definition get_items (urls_to_scrape : list string) (w : World) : outcome :=
  let w := if ignore_cookies p then enable_firefox_extension w else w in
  match capture_loop urls_to_scrape (initial w) with
  | Returned st => Returned (write_metadata st)
  | Raised e st => Raised e st
  end.

(** The states in which the condition of [while urls_to_scrape] is
    evaluated, in order. *)
Fixpoint loop_heads (urls_to_scrape : list string) (st : state) : list state :=
  st ::
  match urls_to_scrape with
  | [] => []
  | u :: rest =>
      match iteration u st with
      | Returned st' => loop_heads rest st'
      | Raised _ _ => []
      end
  end.

(** The states at line 204, where the attempts on a URL have ended and its
    entry is not yet recorded, in order. *)
Fixpoint after_attempts (urls_to_scrape : list string) (st : state)
  : list state :=
  match urls_to_scrape with
  | [] => []
  | u :: rest =>
      let here :=
        if interrupted (world st) then []
        else if set_mem string_dec u (scraped_urls st) then []
        else match attempt_url u st with
             | Ok (_, _, _, st') => [st']
             | Raise _ => []
             end in
      here ++
      match iteration u st with
      | Returned st' => after_attempts rest st'
      | Raised _ _ => []
      end
  end.

(** [self.driver.get(u)] raises at both attempts made from [st]: at the
    first, and at the second, made after the restart that follows the
    first. *)
Definition navigation_raises_twice (u : string) (st : state) : Prop :=
  let first := driver_get u (reset_current_page (world st)) in
  fst first <> None /\
  fst (driver_get u (reset_current_page (restart_selenium (snd first))))
  <> None.

(** The state an outcome carries. *)
Definition final (o : outcome) : state :=
  match o with
  | Returned st => st
  | Raised _ st => st
  end.

(** The calls of [self.driver.get] made for [u] so far. *)
Definition attempts_on (u : string) (st : state) : list (string * nat) :=
  filter (fun e => String.eqb (fst e) u) (nav_log st).

(** The distinct URLs of a list, in the order of their first occurrence. *)
Definition first_seen (l : list string) : list string :=
  fold_left (fun seen u => set_add string_dec u seen) l (empty_set string).

(** An entry of [metadata] as the loop leaves it: filed under its own URL,
    with a timestamp, and with its image in the staging area when the
    capture succeeded. *)
Definition entry_ok (st : state) (kv : string * CaptureResult) : Prop :=
  url (snd kv) = fst kv /\
  timestamp (snd kv) <> None /\
  (final_url (snd kv) <> None ->
   In (filename (snd kv)) (images (staging st))).

(** The state at the head of the loop once the URLs [pre] were popped. *)
Definition processed (pre : list string) (st : state) : Prop :=
  done st = List.length pre /\
  screenshots st <= done st /\
  scraped_urls st = first_seen pre /\
  keys (metadata st) = first_seen pre /\
  Forall (entry_ok st) (metadata st) /\
  metadata_json (staging st) = None.

(** What the attempts on a URL leave alone. *)
Definition same_batch (st st' : state) : Prop :=
  done st' = done st /\ scraped_urls st' = scraped_urls st /\
  metadata st' = metadata st /\
  metadata_json (staging st') = metadata_json (staging st).

(** The three ways the attempts on [u] can end, from [st], saving to
    [file]: saved at the first attempt, saved at the second after one
    failure, or failed twice. *)
Inductive attempts_end (u file : string) (st : state)
  : bool -> list string -> state -> Prop :=
| saved_first (st' : state) :
    same_batch st st' ->
    nav_log st' = (nav_log st ++ [(u, 1)])%list ->
    screenshots st' = screenshots st + 1 ->
    images (staging st') = (images (staging st) ++ [file])%list ->
    attempts_end u file st true [] st'
| saved_second (e : string) (st' : state) :
    e <> "" ->
    same_batch st st' ->
    nav_log st' = (nav_log st ++ [(u, 1); (u, 2)])%list ->
    screenshots st' = screenshots st + 1 ->
    images (staging st') = (images (staging st) ++ [file])%list ->
    attempts_end u file st true [e] st'
| failed_twice (e1 e2 : string) (st' : state) :
    e1 <> "" -> e2 <> "" ->
    same_batch st st' ->
    nav_log st' = (nav_log st ++ [(u, 1); (u, 2)])%list ->
    screenshots st' = screenshots st ->
    images (staging st') = images (staging st) ->
    attempts_end u file st false [e1; e2] st'.

End CaptureLoop.

(** ** A small browser and library to run the loop on

    The browser fails to load any URL that mentions [down], fails the first
    request of one that mentions [flaky], loads a page that does not move for
    [stuck], and cannot save a screenshot of [noshot].  The interruption
    signal is set once [signal_after] requests have been made. *)

Module Toy.

Record session : Type := {
  page : string;
  requests : list string;
  signal_after : nat
}.

Definition load (pg : string) (w : session) : session :=
  {| page := pg; requests := requests w; signal_after := signal_after w |}.

Definition request (u : string) (w : session) : session :=
  {| page := page w; requests := requests w ++ [u];
     signal_after := signal_after w |}.

Definition get (u : string) (w : session) : option string * session :=
  let seen := existsb (String.eqb u) (requests w) in
  let w := request u w in
  if PyStr.contains "down" u then (Some "timeout", w)
  else if (PyStr.contains "flaky" u && negb seen)%bool
       then (Some "connection reset", w)
  else if PyStr.contains "stuck" u then (None, w)
  else (None, load u w).

Definition shoot (w : session) : option string * session :=
  if PyStr.contains "noshot" (page w) then (Some "no image", w) else (None, w).

#[export] Instance browser : Selenium session := {|
  interrupted := fun w => (signal_after w <=? List.length (requests w))%nat;
  now_strftime := fun _ => "20240101000000";
  now_timestamp := fun w => (1700000000 + Z.of_nat (List.length (requests w)))%Z;
  enable_firefox_extension := fun w => w;
  reset_current_page := load "";
  driver_get := get;
  restart_selenium := load "";
  scroll_down_page_to_load := fun _ w => w;
  wait_until_complete := fun _ w => w;
  check_for_movement := fun w => (negb (String.eqb (page w) ""), w);
  sleep := fun _ w => w;
  save_screenshot := fun _ _ _ _ => shoot;
  setxattr_url := fun _ _ w => w;
  current_url := page;
  title := fun w => "Title of " ++ page w
|}.

Definition fresh (n : nat) : session :=
  {| page := ""; requests := []; signal_after := n |}.

(** The host of an absolute URL: what lies between [://] and the next
    slash. *)
Definition host (u : string) : string :=
  nth 0 (PyStr.split "/" (nth 1 (PyStr.split "://" u) "")) "".

(** A validity test in the words of the interface: an explicit [http] or
    [https] scheme, a host that ends in a known top-level domain, and no
    white space after the scheme.  The host is what precedes the first
    slash, question mark or hash. *)
Definition strip_scheme (u : string) : option string :=
  match PyStr.strip_prefix "http://" u with
  | Some rest => Some rest
  | None => PyStr.strip_prefix "https://" u
  end.

Definition delimiter (c : ascii) : bool :=
  (Ascii.eqb c "/" || Ascii.eqb c "?" || Ascii.eqb c "#")%bool.

Fixpoint authority (s : string) : string :=
  match s with
  | EmptyString => ""
  | String c s' => if delimiter c then "" else String c (authority s')
  end.

Definition endswith (suffix s : string) : bool :=
  PyStr.startswith (PyStr.rev_string "" suffix) (PyStr.rev_string "" s).

Definition known_tld (h : string) : bool :=
  (endswith ".com" h || endswith ".org" h || endswith ".net" h)%bool.

Definition visible (c : ascii) : bool := negb (PyStr.isspace c).

Definition valid_url (u : string) : bool :=
  match strip_scheme u with
  | None => false
  | Some rest => (known_tld (authority rest) && PyStr.all visible rest)%bool
  end.

#[export] Instance library : Library := {|
  is_url := valid_url;
  get_domain_name := host;
  url_to_hash := fun u => PyStr.fmt_i (String.length u);
  convert_to_int := fun _ d => d;
  max_sites := 10
|}.

Definition params : parameters :=
  {| ignore_cookies := false; capture := "viewport";
     resolution := "1280x720"; pause := 0; wait := 6 |}.

End Toy.

(** ** The course of one attempt *)

Section AttemptOutcomes.

Context `{Library}.
Context {World : Type} `{Selenium World}.
Variable p : parameters.

(** Lines 170-178: the wait for the page, by scrolling or by polling. *)
Definition ready (w : World) : World :=
  if String.eqb (capture p) "all"
  then scroll_down_page_to_load (wait p) w
  else wait_until_complete (wait p) w.

(** Lines 182-183. *)
Definition paused (w : World) : World :=
  if (pause p =? 0)%Z then w else sleep (pause p) w.

(** Attempt [n] on [u], from the world [w], fails, adds the message to
    [result['error']] and leaves the world given: [driver.get] raised
    (lines 162-167), the page did not move (lines 200-202), or
    [save_screenshot] raised (lines 187-190). *)
Inductive attempt_fails (n : nat) (u file : string) (w : World)
  : string -> World -> Prop :=
| navigation_raised (e : string) (w1 : World) :
    driver_get u (reset_current_page w) = (Some e, w1) ->
    attempt_fails n u file w ("Attempt " ++ PyStr.fmt_i n ++ ": " ++ e)
      (restart_selenium w1)
| page_not_reached (w1 w2 : World) :
    driver_get u (reset_current_page w) = (None, w1) ->
    check_for_movement (ready w1) = (false, w2) ->
    attempt_fails n u file w "Driver was not able to navigate to page" w2
| screenshot_raised (e : string) (w1 w2 w3 : World) :
    driver_get u (reset_current_page w) = (None, w1) ->
    check_for_movement (ready w1) = (true, w2) ->
    save_screenshot file (width p) (height p)
      (String.eqb (capture p) "viewport") (paused w2) = (Some e, w3) ->
    attempt_fails n u file w ("Attempt " ++ PyStr.fmt_i n ++ ": " ++ e) w3.

(** An attempt on [u], from the world [w], saves the screenshot and leaves
    the world given (lines 161-199). *)
Inductive attempt_saves (u file : string) (w : World) : World -> Prop :=
| screenshot_saved (w1 w2 w3 : World) :
    driver_get u (reset_current_page w) = (None, w1) ->
    check_for_movement (ready w1) = (true, w2) ->
    save_screenshot file (width p) (height p)
      (String.eqb (capture p) "viewport") (paused w2) = (None, w3) ->
    attempt_saves u file w (setxattr_url file u w3).

End AttemptOutcomes.


(** ** The report at the end of get_items *)

Section Report.

Context {World : Type}.

(** Whether an entry is that of a capture that succeeded: [final_url] is set
    at line 209 only then. *)
Definition captured (kv : string * CaptureResult) : bool :=
  match final_url (snd kv) with
  | Some _ => true
  | None => false
  end.

(** Lines 220-221: the number logged as the URLs that could not be
    screenshotted, when the line is logged at all. *)
Definition could_not_be_screenshotted (st : @state World) : option nat :=
  if Nat.eqb (screenshots st) (done st) then None
  else Some (done st - screenshots st).

(** The staging area holds the image of every captured entry, in the order
    of the entries, and [screenshots] counts them. *)
Definition image_per_capture (st : @state World) : Prop :=
  images (staging st)
  = map (fun kv => filename (snd kv)) (filter captured (metadata st)) /\
  screenshots st = List.length (images (staging st)).

(** The requests made for each URL: none, one, or two, numbered from one;
    and none for a URL that was never marked as scraped. *)
Definition requests_bounded (st : @state World) : Prop :=
  forall u,
    (attempts_on u st = [] \/ attempts_on u st = [(u, 1)] \/
     attempts_on u st = [(u, 1); (u, 2)]) /\
    (attempts_on u st <> [] -> set_In u (scraped_urls st)).

(** The requests for each URL at the heads of the loop: none before the URL
    is marked, one or two after, and between one and two per marked URL in
    all. *)
Definition requests_at_head (st : @state World) : Prop :=
  requests_bounded st /\
  (forall u, set_In u (scraped_urls st) -> attempts_on u st <> []) /\
  List.length (scraped_urls st) <= List.length (nav_log st) /\
  List.length (nav_log st) <= 2 * List.length (scraped_urls st).

End Report.

(** * Properties *)

(** ** Strings *)

Lemma append_assoc (a b c : string) : (a ++ b) ++ c = a ++ (b ++ c).
Proof. induction a as [|x a IH]; simpl; [reflexivity | now rewrite IH]. Qed.

Lemma length_append (a b : string) :
  String.length (a ++ b) = String.length a + String.length b.
Proof. induction a as [|x a IH]; simpl; [reflexivity | now rewrite IH]. Qed.

Lemma all_append (q : ascii -> bool) (a b : string) :
  PyStr.all q (a ++ b) = (PyStr.all q a && PyStr.all q b)%bool.
Proof.
  induction a as [|x a IH]; simpl; [reflexivity |].
  rewrite IH. now rewrite andb_assoc.
Qed.

Lemma all_weaken (q q' : ascii -> bool) (s : string) :
  (forall c, q c = true -> q' c = true) ->
  PyStr.all q s = true -> PyStr.all q' s = true.
Proof.
  intros Hq. induction s as [|x s IH]; simpl; [reflexivity |].
  intros H. apply andb_true_iff in H as [Hx Hs].
  rewrite (Hq _ Hx). simpl. now apply IH.
Qed.

Lemma strip_prefix_inv (pre s t : string) :
  PyStr.strip_prefix pre s = Some t -> s = pre ++ t.
Proof.
  revert s. induction pre as [|a pre IH]; intros s; simpl.
  - now intros [= ->].
  - destruct s as [|b s]; [discriminate |].
    destruct (Ascii.eqb a b) eqn:E; [| discriminate].
    apply Ascii.eqb_eq in E. subst b. intros Hs. now rewrite (IH _ Hs).
Qed.

Lemma strip_prefix_append (pre t : string) :
  PyStr.strip_prefix pre (pre ++ t) = Some t.
Proof.
  induction pre as [|a pre IH]; simpl; [reflexivity |].
  now rewrite Ascii.eqb_refl.
Qed.

(** ** The scan of the regular expression *)

Module ArchiveReFacts.

Import PyStr ArchiveRe.

Lemma is_digit_not_a (c : ascii) : is_digit c = true -> not_a c = true.
Proof.
  unfold not_a. destruct (Ascii.eqb c "a") eqn:E; [| reflexivity].
  apply Ascii.eqb_eq in E. subst c. discriminate.
Qed.

Lemma span_digits_inv (s d r : string) :
  span_digits s = (d, r) ->
  s = d ++ r /\ all is_digit d = true /\ ends_run r.
Proof.
  revert d r. induction s as [|c s IH]; intros d r; simpl.
  - intros [= <- <-]. repeat split.
  - destruct (is_digit c) eqn:Hc.
    + destruct (span_digits s) as [d' r'] eqn:Hs.
      intros [= <- <-]. destruct (IH _ _ eq_refl) as (-> & Hd & Hr).
      simpl. rewrite Hc, Hd. repeat split. exact Hr.
    + intros [= <- <-]. simpl. repeat split. exact Hc.
Qed.

Lemma span_digits_append (d r : string) :
  all is_digit d = true -> ends_run r -> span_digits (d ++ r) = (d, r).
Proof.
  intros Hd Hr. induction d as [|c d IH]; simpl in *.
  - destruct r as [|x r]; [reflexivity |]. simpl in *. now rewrite Hr.
  - apply andb_true_iff in Hd as [Hc Hd]. rewrite Hc, (IH Hd). reflexivity.
Qed.

Lemma match_at_inv (s d r : string) :
  match_at s = Some (d, r) ->
  s = literal ++ d ++ String "/" r /\ d <> "" /\ all is_digit d = true.
Proof.
  unfold match_at.
  destruct (strip_prefix literal s) as [t|] eqn:Hp; [| discriminate].
  apply strip_prefix_inv in Hp.
  destruct (span_digits t) as [d' r'] eqn:Hs.
  apply span_digits_inv in Hs as (-> & Hd & _).
  destruct d' as [|c d']; [discriminate |].
  destruct r' as [|x r']; [discriminate |].
  destruct (Ascii.eqb x "/") eqn:Hx; [| discriminate].
  apply Ascii.eqb_eq in Hx. subst x.
  intros [= <- <-]. subst s. repeat split; [discriminate | exact Hd].
Qed.

Lemma match_at_intro (d r : string) :
  d <> "" -> all is_digit d = true ->
  match_at (literal ++ d ++ String "/" r) = Some (d, r).
Proof.
  intros Hne Hd. unfold match_at.
  rewrite strip_prefix_append.
  rewrite (span_digits_append d (String "/" r) Hd) by reflexivity.
  destruct d; [contradiction | reflexivity].
Qed.

Lemma match_at_head (c : ascii) (s : string) :
  not_a c = true -> match_at (String c s) = None.
Proof.
  unfold not_a, match_at, literal. cbn [strip_prefix]. intros Hc.
  rewrite Ascii.eqb_sym. destruct (Ascii.eqb c "a"); [discriminate | reflexivity].
Qed.

Lemma drop_plus (a b : string) (m : nat) :
  drop (String.length a + m) (a ++ b) = drop m b.
Proof. induction a as [|x a IH]; simpl; [reflexivity | exact IH]. Qed.

Lemma sub_cons (c : ascii) (s : string) :
  sub (String c s) =
  match match_at (String c s) with
  | Some (d, _) => literal ++ d ++ "if_/" ++ sub_aux (match_length d - 1) s
  | None => String c (sub s)
  end.
Proof. reflexivity. Qed.

(** Passing over [n] characters is resuming the scan [n] characters on. *)
Lemma sub_aux_drop (n : nat) (s : string) : sub_aux n s = sub (drop n s).
Proof.
  revert n. induction s as [|c s IH]; intros [|n]; try reflexivity.
  change (sub_aux n s = sub (drop n s)). apply IH.
Qed.

Lemma sub_match (s d r : string) :
  match_at s = Some (d, r) -> sub s = literal ++ d ++ "if_/" ++ sub r.
Proof.
  intros E. destruct (match_at_inv _ _ _ E) as (Hs & _ & _).
  subst s. change (literal ++ d ++ String "/" r)
    with (String "a" ("rchive.org/web/" ++ d ++ String "/" r)) in *.
  rewrite sub_cons, E, sub_aux_drop.
  replace (match_length d - 1)
    with (String.length "rchive.org/web/" + (String.length d + 1))
    by (unfold match_length; simpl; lia).
  rewrite !drop_plus. reflexivity.
Qed.

Lemma sub_nomatch (c : ascii) (s : string) :
  match_at (String c s) = None -> sub (String c s) = String c (sub s).
Proof. intros E. now rewrite sub_cons, E. Qed.

(** The scan keeps the first character. *)
Lemma sub_head (c : ascii) (s : string) :
  exists t, sub (String c s) = String c t.
Proof.
  destruct (match_at (String c s)) as [[d r]|] eqn:E.
  - rewrite (sub_match _ _ _ E).
    destruct (match_at_inv _ _ _ E) as (Hs & _ & _).
    injection Hs as -> _. eexists. reflexivity.
  - rewrite (sub_nomatch _ _ E). eexists. reflexivity.
Qed.

Lemma sub_not_a_append (u s : string) :
  all not_a u = true -> sub (u ++ s) = u ++ sub s.
Proof.
  induction u as [|c u IH]; simpl; [reflexivity |].
  intros H. apply andb_true_iff in H as [Hc Hu].
  rewrite (sub_nomatch _ _ (match_at_head c _ Hc)), (IH Hu). reflexivity.
Qed.

(** A text free of [a] at the head of the result was at the head of the
    input. *)
Lemma sub_not_a_inv (u : string) :
  all not_a u = true ->
  forall s t, sub s = u ++ t -> exists s', s = u ++ s' /\ sub s' = t.
Proof.
  induction u as [|c u IH]; simpl; intros Hu s t Hs.
  - exists s. split; [reflexivity | exact Hs].
  - apply andb_true_iff in Hu as [Hc Hu].
    destruct s as [|x s]; [discriminate |].
    destruct (sub_head x s) as [t' Ht'].
    rewrite Ht' in Hs. injection Hs as -> ->.
    rewrite (sub_nomatch _ _ (match_at_head c _ Hc)) in Ht'.
    injection Ht' as Ht'.
    destruct (IH Hu _ _ Ht') as (s' & -> & Hs').
    exists s'. split; [reflexivity | exact Hs'].
Qed.

Lemma digits_not_a (d : string) :
  all is_digit d = true -> all not_a d = true.
Proof. apply all_weaken, is_digit_not_a. Qed.

(** After the substitution no match begins at the head. *)
Lemma match_at_sub (s : string) : match_at (sub s) = None.
Proof.
  destruct s as [|c s]; [reflexivity |].
  destruct (match_at (String c s)) as [[d r]|] eqn:E.
  - rewrite (sub_match _ _ _ E).
    destruct (match_at_inv _ _ _ E) as (_ & Hne & Hd).
    unfold match_at. rewrite strip_prefix_append.
    rewrite (span_digits_append d ("if_/" ++ sub r) Hd) by reflexivity.
    destruct d; [contradiction | reflexivity].
  - rewrite (sub_nomatch _ _ E).
    destruct (match_at (String c (sub s))) as [[d r]|] eqn:E'; [| reflexivity].
    exfalso.
    destruct (match_at_inv _ _ _ E') as (Hs & Hne & Hd).
    change (literal ++ d ++ String "/" r)
      with (String "a" ("rchive.org/web/" ++ d ++ String "/" r)) in Hs.
    injection Hs as -> Hs.
    assert (Hs2 : sub s = ("rchive.org/web/" ++ d) ++ String "/" r)
      by (rewrite Hs, append_assoc; reflexivity).
    apply sub_not_a_inv in Hs2 as (s' & -> & Hs').
    + destruct s' as [|x s']; [discriminate |].
      destruct (sub_head x s') as [t Ht]. rewrite Ht in Hs'.
      injection Hs' as -> _.
      rewrite append_assoc in E.
      change (String "a" ("rchive.org/web/" ++ d ++ String "/" s'))
        with (literal ++ d ++ String "/" s') in E.
      rewrite (match_at_intro d s' Hne Hd) in E. discriminate.
    + rewrite all_append, (digits_not_a d Hd). reflexivity.
Qed.

Lemma sub_idempotent_upto (n : nat) :
  forall s, String.length s <= n -> sub (sub s) = sub s.
Proof.
  induction n as [|n IH]; intros s Hn.
  - destruct s; [reflexivity | simpl in Hn; lia].
  - destruct s as [|c s]; [reflexivity |].
    destruct (match_at (String c s)) as [[d r]|] eqn:E.
    + pose proof (match_at_sub (String c s)) as Hm.
      rewrite (sub_match _ _ _ E) in Hm |- *.
      destruct (match_at_inv _ _ _ E) as (Hs & _ & Hd).
      change (literal ++ d ++ "if_/" ++ sub r)
        with (String "a" ("rchive.org/web/" ++ d ++ "if_/" ++ sub r)) in Hm |- *.
      rewrite (sub_nomatch _ _ Hm).
      rewrite <- (append_assoc d "if_/"), <- (append_assoc "rchive.org/web/").
      rewrite sub_not_a_append.
      * rewrite IH; [reflexivity |].
        rewrite Hs in Hn. rewrite !length_append in Hn. simpl in Hn. lia.
      * rewrite !all_append, (digits_not_a d Hd). reflexivity.
    + pose proof (match_at_sub (String c s)) as Hm.
      rewrite (sub_nomatch _ _ E) in Hm |- *.
      rewrite (sub_nomatch _ _ Hm), IH; [reflexivity |].
      simpl in Hn. lia.
Qed.

Lemma sub_idempotent (s : string) : sub (sub s) = sub s.
Proof. apply (sub_idempotent_upto (String.length s)). lia. Qed.

Lemma findall_cons (c : ascii) (s : string) :
  findall (String c s) =
  match match_at (String c s) with
  | Some (d, _) => (literal ++ d ++ "/") :: findall_aux (match_length d - 1) s
  | None => findall s
  end.
Proof. reflexivity. Qed.

Lemma findall_not_a_append (u s : string) :
  all not_a u = true -> findall (u ++ s) = findall s.
Proof.
  induction u as [|c u IH]; simpl; [reflexivity |].
  intros H. apply andb_true_iff in H as [Hc Hu].
  rewrite findall_cons, (match_at_head c _ Hc). exact (IH Hu).
Qed.

Lemma findall_sub_upto (n : nat) :
  forall s, String.length s <= n -> findall (sub s) = [].
Proof.
  induction n as [|n IH]; intros s Hn.
  - destruct s; [reflexivity | simpl in Hn; lia].
  - destruct s as [|c s]; [reflexivity |].
    pose proof (match_at_sub (String c s)) as Hm.
    destruct (match_at (String c s)) as [[d r]|] eqn:E.
    + rewrite (sub_match _ _ _ E) in Hm |- *.
      destruct (match_at_inv _ _ _ E) as (Hs & _ & Hd).
      change (literal ++ d ++ "if_/" ++ sub r)
        with (String "a" ("rchive.org/web/" ++ d ++ "if_/" ++ sub r)) in Hm |- *.
      rewrite findall_cons, Hm.
      rewrite <- (append_assoc d "if_/"), <- (append_assoc "rchive.org/web/").
      rewrite findall_not_a_append.
      * apply IH. rewrite Hs in Hn. rewrite !length_append in Hn.
        simpl in Hn. lia.
      * rewrite !all_append, (digits_not_a d Hd). reflexivity.
    + rewrite (sub_nomatch _ _ E) in Hm |- *.
      rewrite findall_cons, Hm. apply IH. simpl in Hn. lia.
Qed.

(** After the substitution the pattern is found nowhere. *)
Lemma findall_sub (s : string) : findall (sub s) = [].
Proof. apply (findall_sub_upto (String.length s)). lia. Qed.

End ArchiveReFacts.

(** ** The URL preprocessor *)

(** C4. The toolbar rewrite of [validate_query] is idempotent: rewriting a
    URL that was already rewritten changes nothing, so the [if_] marker is
    never inserted a second time; indeed the pattern is found nowhere in a
    rewritten URL. *)
Theorem detoolbar_idempotent (u : string) :
  detoolbar (detoolbar u) = detoolbar u /\
  ArchiveRe.findall (detoolbar u) = [].
Proof.
  unfold detoolbar.
  destruct (ArchiveRe.findall u) as [|m ms] eqn:E.
  - rewrite E. split; reflexivity.
  - rewrite ArchiveReFacts.findall_sub. split; reflexivity.
Qed.

Example detoolbar_twice :
  detoolbar (detoolbar "https://web.archive.org/web/20200101120000/https://example.com")
  = "https://web.archive.org/web/20200101120000if_/https://example.com".
Proof. reflexivity. Qed.

Lemma detoolbar_loop_map (l acc : list string) :
  detoolbar_loop l acc = (acc ++ map detoolbar l)%list.
Proof.
  revert acc. induction l as [|u l IH]; intros acc; simpl.
  - now rewrite app_nil_r.
  - rewrite IH, <- app_assoc. reflexivity.
Qed.

Section PreprocessorFacts.

Context `{Library}.

Lemma validate_query_unfold (q : query) :
  validate_query q =
  if String.eqb (raw_text q) "" then
    Raise (QueryParametersException "Please provide a List of urls.")
  else if (Z.of_nat (List.length (survivors q)) >? max_sites)%Z then
    Raise (QueryParametersException too_many_message)
  else match survivors q with
       | [] => Raise (QueryParametersException
                        "No valid URLs provided - please enter one valid URL per line.")
       | _ :: _ => Ok {| sq_query := map detoolbar (survivors q);
                         sq_rest := q_rest q |}
       end.
Proof.
  unfold validate_query, survivors, raw_text.
  destruct (q_query q) as [[|c raw]|]; try reflexivity.
  cbn [String.eqb].
  destruct (_ >? _)%Z; [reflexivity |].
  rewrite detoolbar_loop_map. cbn [app].
  destruct (filter is_url (split_urls (String c raw))); reflexivity.
Qed.

(** C6. [validate_query] raises exactly when the raw input is empty, no URL
    survives [is_url], or more URLs survive than [max_sites]; what it raises
    is always a [QueryParametersException]; on every other input it returns
    the sanitised query, whose URLs are the survivors, rewritten. *)
Theorem validate_query_raises_iff (q : query) :
  ((exists e, validate_query q = Raise e) <->
   (raw_text q = "" \/ survivors q = [] \/
    (Z.of_nat (List.length (survivors q)) > max_sites)%Z)) /\
  (forall e, validate_query q = Raise e ->
             exists msg, e = QueryParametersException msg) /\
  (~ (raw_text q = "" \/ survivors q = [] \/
      (Z.of_nat (List.length (survivors q)) > max_sites)%Z) ->
   validate_query q = Ok {| sq_query := map detoolbar (survivors q);
                            sq_rest := q_rest q |}).
Proof.
  rewrite validate_query_unfold.
  destruct (String.eqb_spec (raw_text q) "") as [He|He].
  { repeat split; eauto; try discriminate; try tauto.
    intros e [= <-]. eauto. }
  destruct (Z.gtb_spec (Z.of_nat (List.length (survivors q))) max_sites)
    as [Hm|Hm].
  { repeat split; eauto; try discriminate.
    - intros _. right. right. lia.
    - intros e [= <-]. eauto.
    - intros Hn. exfalso. apply Hn. right. right. lia. }
  destruct (survivors q) as [|u l] eqn:Hs.
  { repeat split; eauto; try discriminate; try tauto.
    intros e [= <-]. eauto. }
  repeat split; try discriminate.
  - intros [e He']. discriminate.
  - intros [Hq | [Hq | Hq]]; [contradiction | discriminate | simpl in *; lia].
Qed.


(** C8. For the archive snapshot
    [https://web.archive.org/web/20200101120000/https://example.com] the name
    is made of the archived domain with [-archived], the timestamp of the
    snapshot and the hash of the URL, whatever the clock and [ural]'s domain
    of the URL are; the same holds with the [if_] marker after the
    timestamp, which is left out of the name. *)
Theorem filename_from_url_archive (now : string) :
  filename_from_url now
    "https://web.archive.org/web/20200101120000/https://example.com"
  = Ok ("example.com-archived-20200101120000-"
        ++ url_to_hash
             "https://web.archive.org/web/20200101120000/https://example.com")
  /\
  filename_from_url now
    "https://web.archive.org/web/20200101120000if_/https://example.com"
  = Ok ("example.com-archived-20200101120000-"
        ++ url_to_hash
             "https://web.archive.org/web/20200101120000if_/https://example.com").
Proof. split; reflexivity. Qed.

End PreprocessorFacts.

(** ** The attempts on one URL *)

Section CaptureFacts.

Context `{Library}.
Context {World : Type} `{Selenium World}.
Variable p : parameters.

Lemma attempt_error_nonempty (n : nat) (e : string) : attempt_error n e <> "".
Proof. discriminate. Qed.

Ltac split_calls :=
  repeat match goal with
    | |- context [driver_get ?u ?w] =>
        destruct (driver_get u w) as [[?|] ?] eqn:?
    | |- context [check_for_movement ?w] =>
        destruct (check_for_movement w) as [[|] ?] eqn:?
    | |- context [save_screenshot ?a ?b ?c ?d ?w] =>
        destruct (save_screenshot a b c d w) as [[?|] ?] eqn:?
    end.

(** Two units of fuel are what the loop needs: from [attempts = 0] it ends
    in one of the three ways, never by lack of fuel. *)
Lemma capture_attempts_end (u file : string) (st : state) :
  attempts_end u file st
    (fst (fst (capture_attempts p 2 u file 0 [] st)))
    (snd (fst (capture_attempts p 2 u file 0 [] st)))
    (snd (capture_attempts p 2 u file 0 [] st)).
Proof.
  cbn [capture_attempts Nat.ltb Nat.leb Nat.add app].
  split_calls; cbn [fst snd app];
    first [ apply saved_first | apply saved_second | apply failed_twice ];
    try apply attempt_error_nonempty; try discriminate;
    try (repeat split; reflexivity);
    cbn; rewrite <- ?app_assoc; reflexivity.
Qed.

(** The course of the two attempts, by what the browser did at each. *)
Lemma capture_attempts_course (u file : string) (st : state) :
  exists success errors st',
    capture_attempts p 2 u file 0 [] st = (success, errors, st') /\
    ((success = true /\ errors = [] /\
      attempt_saves p u file (world st) (world st'))
     \/
     (exists m1 w1,
        success = true /\ errors = [m1] /\
        attempt_fails p 1 u file (world st) m1 w1 /\
        attempt_saves p u file w1 (world st'))
     \/
     (exists m1 m2 w1,
        success = false /\ errors = [m1; m2] /\
        attempt_fails p 1 u file (world st) m1 w1 /\
        attempt_fails p 2 u file w1 m2 (world st'))).
Proof.
  cbn [capture_attempts Nat.ltb Nat.leb Nat.add app].
  split_calls; cbn [with_world log_nav saved world app] in *;
    do 3 eexists; (split; [reflexivity |]); cbn [world saved with_world];
    first
      [ left; repeat split; econstructor; eassumption
      | right; left; do 2 eexists; repeat split;
        [ first [ eapply navigation_raised; eassumption
                | eapply page_not_reached; eassumption
                | eapply screenshot_raised; eassumption ]
        | econstructor; eassumption ]
      | right; right; do 3 eexists; repeat split;
        first [ eapply navigation_raised; eassumption
              | eapply page_not_reached; eassumption
              | eapply screenshot_raised; eassumption ] ].
Qed.

Lemma capture_attempts_more_fuel (n : nat) (u file : string) (st : state) :
  capture_attempts p (2 + n) u file 0 [] st
  = capture_attempts p 2 u file 0 [] st.
Proof.
  cbn [capture_attempts Nat.ltb Nat.leb Nat.add app].
  split_calls; try reflexivity; destruct n; reflexivity.
Qed.

Lemma capture_attempts_nav_raises (u file : string) (st : state) :
  navigation_raises_twice u st ->
  exists e1 e2 st',
    capture_attempts p 2 u file 0 [] st
    = (false, [attempt_error 1 e1; attempt_error 2 e2], st') /\
    same_batch st st' /\
    nav_log st' = (nav_log st ++ [(u, 1); (u, 2)])%list /\
    screenshots st' = screenshots st /\
    staging st' = staging st.
Proof.
  unfold navigation_raises_twice. cbv zeta.
  cbn [capture_attempts Nat.ltb Nat.leb Nat.add app].
  destruct (driver_get u (reset_current_page (world st))) as [[e1|] w1] eqn:G1;
    cbn [fst snd]; [| intros [Hn _]; now contradiction Hn].
  cbn [with_world log_nav world].
  destruct (driver_get u (reset_current_page (restart_selenium w1)))
    as [[e2|] w2] eqn:G2;
    cbn [fst snd]; [| intros [_ Hn]; now contradiction Hn].
  intros _. exists e1, e2. eexists. split; [reflexivity |].
  cbn. rewrite <- app_assoc. repeat split.
Qed.

(** ** One iteration of the loop *)

Lemma dict_get_set_same {V : Type} (k : string) (v : V) (d : list (string * V)) :
  dict_get k (dict_set k v d) = Some v.
Proof.
  induction d as [|[k' v'] d IH]; simpl.
  - now rewrite String.eqb_refl.
  - destruct (String.eqb k k') eqn:E; simpl.
    + now rewrite String.eqb_refl.
    + now rewrite E.
Qed.

Lemma dict_get_set_other {V : Type} (k k' : string) (v : V)
  (d : list (string * V)) :
  k <> k' -> dict_get k (dict_set k' v d) = dict_get k d.
Proof.
  intros Hne. apply String.eqb_neq in Hne.
  induction d as [|[k0 v0] d IH]; simpl.
  - now rewrite Hne.
  - destruct (String.eqb k' k0) eqn:E; simpl.
    + apply String.eqb_eq in E. subst k0. now rewrite Hne.
    + destruct (String.eqb k k0); [reflexivity | exact IH].
Qed.

Lemma iteration_interrupted (u : string) (st : state) :
  interrupted (world st) = true ->
  iteration p u st
  = Raised (ProcessorInterruptedException "Interrupted while making screenshots") st.
Proof. unfold iteration. now intros ->. Qed.

Lemma iteration_duplicate (u : string) (st : state) :
  interrupted (world st) = false ->
  set_mem string_dec u (scraped_urls st) = true ->
  iteration p u st = Returned (skip_duplicate st).
Proof. unfold iteration. now intros -> ->. Qed.

(** A URL not scraped before: either its name cannot be derived and the
    exception leaves the loop, or the attempts end in one of the three ways
    and the entry is recorded. *)
Lemma iteration_fresh (u : string) (st : state) :
  interrupted (world st) = false ->
  set_mem string_dec u (scraped_urls st) = false ->
  (exists e,
     filename_from_url (now_strftime (world st)) u = Raise e /\
     iteration p u st = Raised e (mark_scraped u st))
  \/
  (exists name success errors st',
     filename_from_url (now_strftime (world st)) u = Ok name /\
     capture_attempts p 2 u (name ++ ".png") 0 [] (mark_scraped u st)
     = (success, errors, st') /\
     attempts_end u (name ++ ".png") (mark_scraped u st) success errors st' /\
     iteration p u st
     = Returned (record_result u
                   (freeze u (name ++ ".png") success errors (world st')) st')).
Proof.
  intros Hi Hm. unfold iteration, attempt_url. rewrite Hi, Hm.
  cbn [mark_scraped world].
  destruct (filename_from_url (now_strftime (world st)) u) as [name|e] eqn:F.
  - right. cbn [bind].
    pose proof (capture_attempts_end u (name ++ ".png") (mark_scraped u st)) as E.
    destruct (capture_attempts p 2 u (name ++ ".png") 0 [] (mark_scraped u st))
      as [[success errors] st'] eqn:C.
    exists name, success, errors, st'. repeat split; assumption.
  - left. exists e. split; reflexivity.
Qed.

(** C1. For a URL the loop processes: when the screenshot is saved at the
    first attempt, [final_url] and [subject] are set and [error] is the
    empty string; when the first attempt fails and the second saves it, they
    are set and [error] is the message of the first attempt, which is not
    empty; when both attempts fail, they are [None] and [error] is the two
    messages joined by a comma and a space, which is not empty.  The message
    of a failed attempt is the one [attempt_fails] gives for what the browser
    did. *)
Theorem capture_result_fields (u : string) (st st' : state) :
  interrupted (world st) = false ->
  set_mem string_dec u (scraped_urls st) = false ->
  iteration p u st = Returned st' ->
  exists r,
    dict_get u (metadata st') = Some r /\ url r = u /\
    ((attempt_saves p u (filename r) (world st) (world st') /\
      images (staging st') = (images (staging st) ++ [filename r])%list /\
      nav_log st' = (nav_log st ++ [(u, 1)])%list /\
      final_url r = Some (current_url (world st')) /\
      subject r = Some (title (world st')) /\
      error r = "")
     \/
     (exists m1 w1,
        attempt_fails p 1 u (filename r) (world st) m1 w1 /\
        attempt_saves p u (filename r) w1 (world st') /\
        images (staging st') = (images (staging st) ++ [filename r])%list /\
        nav_log st' = (nav_log st ++ [(u, 1); (u, 2)])%list /\
        final_url r = Some (current_url (world st')) /\
        subject r = Some (title (world st')) /\
        error r = m1 /\ error r <> "")
     \/
     (exists m1 m2 w1,
        attempt_fails p 1 u (filename r) (world st) m1 w1 /\
        attempt_fails p 2 u (filename r) w1 m2 (world st') /\
        images (staging st') = images (staging st) /\
        nav_log st' = (nav_log st ++ [(u, 1); (u, 2)])%list /\
        final_url r = None /\
        subject r = None /\
        error r = m1 ++ ", " ++ m2 /\ error r <> "")).
Proof.
  intros Hi Hm Hit.
  destruct (iteration_fresh u st Hi Hm)
    as [(e & _ & He) | (name & success & errors & st1 & _ & C & E & He)];
    rewrite He in Hit; [discriminate |].
  injection Hit as <-.
  eexists. split; [apply dict_get_set_same |].
  split; [reflexivity |].
  cbn [record_result freeze staging nav_log world filename final_url
       subject error].
  destruct (capture_attempts_course u (name ++ ".png") (mark_scraped u st))
    as (success' & errors' & st1' & C' & Hcourse).
  rewrite C in C'. injection C' as <- <- <-.
  cbn [mark_scraped world] in Hcourse.
  destruct Hcourse as [(-> & -> & Hs)
                      | [(m1 & w1 & -> & -> & Hf & Hs)
                        | (m1 & m2 & w1 & -> & -> & Hf1 & Hf2)]].
  - left. inversion E as [st1' B L S I | |]; subst.
    cbn [mark_scraped staging nav_log] in L, I. rewrite I, L.
    repeat split. exact Hs.
  - right. left. exists m1, w1.
    inversion E as [| e st1' He1 B L S I |]; subst.
    cbn [mark_scraped staging nav_log] in L, I. rewrite I, L.
    repeat split; assumption.
  - right. right. exists m1, m2, w1.
    inversion E as [| | e1 e2 st1' He1 He2 B L S I]; subst.
    cbn [mark_scraped staging nav_log] in L, I. rewrite I, L.
    repeat split; try assumption.
    cbn. destruct m1; [contradiction | discriminate].
Qed.

(** X12. For a URL met for the first time whose name [filename_from_url]
    derives: when [driver.get] raises at both attempts made on it, the loop
    makes exactly these two requests, saves no screenshot, and records the
    URL as failed with exactly two error entries, one per attempt; the
    iteration returns and the loop goes on with the next URL. *)
Theorem navigation_always_raises (u name : string) (rest : list string)
  (st : state) :
  navigation_raises_twice u st ->
  interrupted (world st) = false ->
  set_mem string_dec u (scraped_urls st) = false ->
  filename_from_url (now_strftime (world st)) u = Ok name ->
  exists e1 e2 st',
    snd (fst (capture_attempts p 2 u (name ++ ".png") 0 []
                (mark_scraped u st)))
    = [attempt_error 1 e1; attempt_error 2 e2] /\
    iteration p u st = Returned st' /\
    capture_loop p (u :: rest) st = capture_loop p rest st' /\
    nav_log st' = (nav_log st ++ [(u, 1); (u, 2)])%list /\
    screenshots st' = screenshots st /\
    staging st' = staging st /\
    done st' = done st + 1 /\
    dict_get u (metadata st')
    = Some {| url := u;
              filename := name ++ ".png";
              timestamp := Some (now_timestamp (world st'));
              error := PyStr.join ", " [attempt_error 1 e1; attempt_error 2 e2];
              final_url := None;
              subject := None |}.
Proof.
  intros Hnav Hi Hm Hf.
  destruct (capture_attempts_nav_raises u (name ++ ".png")
              (mark_scraped u st) Hnav)
    as (e1 & e2 & st1 & C & (Bd & Bs & Bm & Bj) & L & S & G).
  assert (It : iteration p u st
               = Returned (record_result u
                   (freeze u (name ++ ".png") false
                      [attempt_error 1 e1; attempt_error 2 e2] (world st1)) st1)).
  { unfold iteration, attempt_url. rewrite Hi, Hm.
    cbn [mark_scraped world]. rewrite Hf. cbn [bind].
    rewrite C. reflexivity. }
  exists e1, e2. eexists. rewrite C.
  split; [reflexivity |]. split; [exact It |].
  split; [cbn [capture_loop]; now rewrite It |].
  cbn [record_result nav_log screenshots staging done metadata world].
  rewrite L, S, G, Bd. repeat split.
  apply dict_get_set_same.
Qed.

(** ** The batch *)

Lemma set_add_in (u : string) (l : set string) :
  In u l -> set_add string_dec u l = l.
Proof.
  induction l as [|x l IH]; simpl; [contradiction |].
  intros [-> | Hin].
  - destruct (string_dec u u); [reflexivity | contradiction].
  - destruct (string_dec u x); [reflexivity | now rewrite IH].
Qed.

Lemma set_add_fresh (u : string) (l : set string) :
  ~ In u l -> set_add string_dec u l = (l ++ [u])%list.
Proof.
  induction l as [|x l IH]; simpl; [reflexivity |].
  intros Hn. destruct (string_dec u x) as [-> | _].
  - exfalso. apply Hn. now left.
  - rewrite IH; [reflexivity |]. intros Hin. apply Hn. now right.
Qed.

Lemma first_seen_snoc (pre : list string) (u : string) :
  first_seen (pre ++ [u]) = set_add string_dec u (first_seen pre).
Proof. unfold first_seen. now rewrite fold_left_app. Qed.

Lemma fold_set_add_NoDup (l : list string) :
  forall acc, NoDup acc ->
  NoDup (fold_left (fun seen u => set_add string_dec u seen) l acc).
Proof.
  induction l as [|u l IH]; intros acc Hacc; simpl; [exact Hacc |].
  apply IH. now apply set_add_nodup.
Qed.

Lemma first_seen_NoDup (l : list string) : NoDup (first_seen l).
Proof. apply fold_set_add_NoDup. constructor. Qed.

Lemma fold_set_add_In (u : string) (l : list string) :
  forall acc,
  In u (fold_left (fun seen v => set_add string_dec v seen) l acc)
  <-> In u acc \/ In u l.
Proof.
  induction l as [|v l IH]; intros acc; simpl; [tauto |].
  rewrite IH. unfold set_In. rewrite set_add_iff. intuition congruence.
Qed.

Lemma first_seen_In (u : string) (l : list string) :
  In u (first_seen l) <-> In u l.
Proof. unfold first_seen. rewrite fold_set_add_In. simpl. tauto. Qed.

Lemma keys_dict_set_fresh {V : Type} (k : string) (v : V)
  (d : list (string * V)) :
  ~ In k (keys d) -> keys (dict_set k v d) = (keys d ++ [k])%list.
Proof.
  induction d as [|[k' v'] d IH]; simpl; [reflexivity |].
  intros Hn. destruct (String.eqb_spec k k') as [-> | _].
  - exfalso. apply Hn. now left.
  - simpl. rewrite IH; [reflexivity |]. intros Hin. apply Hn. now right.
Qed.

Lemma Forall_dict_set {V : Type} (P : string * V -> Prop) (k : string) (v : V)
  (d : list (string * V)) :
  Forall P d -> P (k, v) -> Forall P (dict_set k v d).
Proof.
  intros Hd Hk. induction Hd as [|[k' v'] d Hx Hd IH]; simpl.
  - constructor; [exact Hk | constructor].
  - destruct (String.eqb k k'); constructor; assumption.
Qed.

Lemma entry_ok_grow (st st' : @state World) (kv : string * CaptureResult) :
  incl (images (staging st)) (images (staging st')) ->
  entry_ok st kv -> entry_ok st' kv.
Proof.
  intros Hincl (Hu & Ht & Hf). repeat split; try assumption.
  intros Hne. apply Hincl, Hf, Hne.
Qed.

Lemma processed_initial (w : World) : processed [] (initial w).
Proof. repeat split; cbn; auto. Qed.

(** An iteration that returns takes the head state for [pre] to the head
    state for [pre] and the URL it popped. *)
Lemma iteration_processed (pre : list string) (u : string) (st st' : state) :
  processed pre st ->
  iteration p u st = Returned st' ->
  processed (pre ++ [u]) st'.
Proof.
  intros (Hd & Hs & Hsc & Hk & He & Hj) Hit.
  destruct (interrupted (world st)) eqn:Hi.
  { rewrite (iteration_interrupted u st Hi) in Hit. discriminate. }
  destruct (set_mem string_dec u (scraped_urls st)) eqn:Hm.
  - rewrite (iteration_duplicate u st Hi Hm) in Hit. injection Hit as <-.
    apply set_mem_correct1 in Hm. rewrite Hsc in Hm.
    unfold processed. cbn [skip_duplicate done screenshots scraped_urls
                             metadata staging].
    rewrite first_seen_snoc, (set_add_in u _ Hm), length_app. cbn.
    repeat split; try assumption; lia.
  - destruct (iteration_fresh u st Hi Hm)
      as [(e & _ & He') | (name & success & errors & st1 & _ & _ & E & He')];
      rewrite He' in Hit; [discriminate |].
    injection Hit as <-.
    apply set_mem_complete1 in Hm. unfold set_In in Hm.
    assert (Hgrow : incl (images (staging st)) (images (staging st1)) /\
                    screenshots st1 <= screenshots st + 1 /\
                    (success = true ->
                     In (name ++ ".png") (images (staging st1))) /\
                    same_batch (mark_scraped u st) st1).
    { destruct E as [st1 B L S I | e st1 He1 B L S I
                    | e1 e2 st1 He1 He2 B L S I];
        cbn [mark_scraped staging screenshots] in *; rewrite I, S;
        repeat split; try apply B; try lia;
        try (intros x Hx; apply in_or_app; now left);
        try (intros _; apply in_or_app; right; now left);
        try (intros x Hx; exact Hx); discriminate. }
    destruct Hgrow as (Hincl & Hshots & Hfile & Bd & Bs & Bm & Bj).
    cbn [mark_scraped done scraped_urls metadata staging] in Bd, Bs, Bm, Bj.
    unfold processed.
    cbn [record_result done screenshots scraped_urls metadata staging].
    rewrite Bd, Bs, Bm, Bj, first_seen_snoc, Hsc, length_app.
    rewrite Hsc in Hm.
    rewrite keys_dict_set_fresh by (rewrite Hk; exact Hm).
    rewrite (set_add_fresh u _ Hm), Hk. cbn.
    repeat split; try assumption; try lia.
    apply Forall_dict_set.
    + eapply Forall_impl; [| exact He].
      intros kv. apply entry_ok_grow. exact Hincl.
    + repeat split; cbn; [discriminate |].
      destruct success; [intros _; now apply Hfile | congruence].
Qed.

Lemma capture_loop_processed (rest : list string) :
  forall pre st st',
  processed pre st ->
  capture_loop p rest st = Returned st' ->
  processed (pre ++ rest) st'.
Proof.
  induction rest as [|u rest IH]; intros pre st st' Hp Hl; simpl in Hl.
  - injection Hl as <-. now rewrite app_nil_r.
  - destruct (iteration p u st) as [st1|e st1] eqn:Hit; [| discriminate].
    replace (pre ++ u :: rest)%list with ((pre ++ [u]) ++ rest)%list
      by (now rewrite <- app_assoc).
    eapply IH; [| exact Hl].
    eapply iteration_processed; eassumption.
Qed.

Lemma loop_heads_processed (rest : list string) :
  forall pre st,
  processed pre st ->
  Forall (fun s => exists k, k <= List.length rest /\
                             processed (pre ++ firstn k rest) s)
         (loop_heads p rest st).
Proof.
  induction rest as [|u rest IH]; intros pre st Hp; simpl.
  - constructor; [| constructor]. exists 0. rewrite app_nil_r. auto.
  - constructor.
    + exists 0. cbn. rewrite app_nil_r. split; [lia | exact Hp].
    + destruct (iteration p u st) as [st1|e st1] eqn:Hit; [| constructor].
      eapply Forall_impl;
        [| apply (IH (pre ++ [u])%list st1);
           eapply iteration_processed; eassumption].
      intros s (k & Hk & Hs). exists (S k). split; [lia |].
      cbn [firstn]. now rewrite <- app_assoc in Hs.
Qed.

Lemma filename_from_url_raises (now u : string) (e : exn) :
  filename_from_url now u = Raise e -> e = IndexError.
Proof.
  unfold filename_from_url, item, bind.
  repeat match goal with
    | |- context [if ?b then _ else _] => destruct b
    | |- context [match nth_error ?l ?i with _ => _ end] =>
        destruct (nth_error l i)
    end; congruence.
Qed.

Lemma iteration_raised (u : string) (e : exn) (st st' : state) :
  iteration p u st = Raised e st' ->
  (e = ProcessorInterruptedException "Interrupted while making screenshots" /\
   interrupted (world st) = true /\ st' = st)
  \/
  (e = IndexError /\ interrupted (world st) = false /\
   st' = mark_scraped u st).
Proof.
  intros Hit.
  destruct (interrupted (world st)) eqn:Hi.
  - rewrite (iteration_interrupted u st Hi) in Hit.
    injection Hit as <- <-. left. auto.
  - destruct (set_mem string_dec u (scraped_urls st)) eqn:Hm.
    + rewrite (iteration_duplicate u st Hi Hm) in Hit. discriminate.
    + destruct (iteration_fresh u st Hi Hm)
        as [(e' & Hf & He') | (name & success & errors & st1 & _ & _ & _ & He')];
        rewrite He' in Hit; [| discriminate].
      injection Hit as <- <-. right.
      apply filename_from_url_raises in Hf. auto.
Qed.

Lemma capture_loop_app (pre rest : list string) :
  forall st,
  capture_loop p (pre ++ rest) st =
  match capture_loop p pre st with
  | Returned st' => capture_loop p rest st'
  | Raised e st' => Raised e st'
  end.
Proof.
  induction pre as [|u pre IH]; intros st; simpl; [reflexivity |].
  destruct (iteration p u st); [apply IH | reflexivity].
Qed.

(** When the loop is left by an exception, the state is the head state for
    the URLs popped before, or that state with the URL whose name could not
    be derived marked as scraped. *)
Lemma capture_loop_raised (rest : list string) :
  forall pre st e st',
  processed pre st ->
  capture_loop p rest st = Raised e st' ->
  exists k st0,
    k < List.length rest /\ processed (pre ++ firstn k rest) st0 /\
    ((e = ProcessorInterruptedException "Interrupted while making screenshots"
      /\ interrupted (world st0) = true /\ st' = st0)
     \/
     (e = IndexError /\ exists u, st' = mark_scraped u st0)).
Proof.
  induction rest as [|u rest IH]; intros pre st e st' Hp Hl; simpl in Hl;
    [discriminate |].
  destruct (iteration p u st) as [st1|e1 st1] eqn:Hit.
  - destruct (IH (pre ++ [u])%list st1 e st') as (k & st0 & Hk & Hp0 & Hc);
      [eapply iteration_processed; eassumption | exact Hl |].
    exists (S k), st0. cbn [firstn List.length].
    rewrite <- app_assoc in Hp0. split; [lia |]. split; assumption.
  - injection Hl as <- <-.
    exists 0, st. cbn [firstn List.length]. rewrite app_nil_r.
    split; [lia |]. split; [exact Hp |].
    destruct (iteration_raised u e1 st st1 Hit) as [(-> & Hi & ->) | (-> & _ & ->)].
    + left. auto.
    + right. split; [reflexivity |]. now exists u.
Qed.

Lemma final_keys_NoDup (rest pre : list string) (st : state) :
  processed pre st ->
  NoDup (keys (metadata (final (capture_loop p rest st)))).
Proof.
  intros Hp.
  destruct (capture_loop p rest st) as [st'|e st'] eqn:Hl; cbn [final].
  - destruct (capture_loop_processed rest pre st st' Hp Hl)
      as (_ & _ & _ & Hk & _).
    rewrite Hk. apply first_seen_NoDup.
  - destruct (capture_loop_raised rest pre st e st' Hp Hl)
      as (k & st0 & _ & (_ & _ & _ & Hk & _) & [(_ & _ & ->) | (_ & u & ->)]);
      cbn [mark_scraped metadata]; rewrite Hk; apply first_seen_NoDup.
Qed.

Lemma dict_get_in_keys {V : Type} (k : string) (d : list (string * V)) :
  In k (keys d) -> exists v, dict_get k d = Some v.
Proof.
  induction d as [|[k' v'] d IH]; simpl; [contradiction |].
  intros Hin. destruct (String.eqb_spec k k') as [-> | Hne].
  - now exists v'.
  - apply IH. destruct Hin as [-> | Hin]; [contradiction | exact Hin].
Qed.

(** Once a URL is in [scraped_urls], nothing the loop does later touches its
    entry or navigates to it. *)
Lemma scraped_persists (u : string) (rest : list string) :
  forall st,
  set_In u (scraped_urls st) ->
  set_In u (scraped_urls (final (capture_loop p rest st))) /\
  dict_get u (metadata (final (capture_loop p rest st)))
  = dict_get u (metadata st) /\
  attempts_on u (final (capture_loop p rest st)) = attempts_on u st.
Proof.
  induction rest as [|v rest IH]; intros st Hin; simpl; [auto |].
  destruct (iteration p v st) as [st1|e st1] eqn:Hit.
  - assert (Hstep : set_In u (scraped_urls st1) /\
                    dict_get u (metadata st1) = dict_get u (metadata st) /\
                    attempts_on u st1 = attempts_on u st).
    { destruct (interrupted (world st)) eqn:Hi.
      { rewrite (iteration_interrupted v st Hi) in Hit. discriminate. }
      destruct (set_mem string_dec v (scraped_urls st)) eqn:Hm.
      - rewrite (iteration_duplicate v st Hi Hm) in Hit.
        injection Hit as <-. auto.
      - destruct (iteration_fresh v st Hi Hm)
          as [(e' & _ & He') | (name & success & errors & st2 & _ & _ & E & He')];
          rewrite He' in Hit; [discriminate |].
        injection Hit as <-.
        assert (Hne : u <> v).
        { intros ->. apply set_mem_complete1 in Hm. contradiction. }
        assert (Hst2 : same_batch (mark_scraped v st) st2 /\
                       exists l, nav_log st2 = (nav_log st ++ l)%list /\
                                 Forall (fun e => fst e = v) l).
        { destruct E as [st2 B L S I | e st2 He1 B L S I
                        | e1 e2 st2 He1 He2 B L S I];
            (split; [exact B |]); eexists; (split; [exact L |]);
            repeat constructor. }
        destruct Hst2 as ((_ & Bs & Bm & _) & l & Hl & Hv).
        cbn [mark_scraped scraped_urls metadata] in Bs, Bm.
        cbn [record_result scraped_urls metadata].
        rewrite Bs, Bm. repeat split.
        + apply set_add_intro1. exact Hin.
        + apply dict_get_set_other. exact Hne.
        + unfold attempts_on at 1. cbn [record_result nav_log].
          rewrite Hl, filter_app.
          replace (filter (fun e => String.eqb (fst e) u) l) with
            (@nil (string * nat)); [now rewrite app_nil_r |].
          symmetry. clear Hl. induction Hv as [|x l Hx Hv IHl]; [reflexivity |].
          simpl. rewrite Hx.
          destruct (String.eqb_spec v u); [congruence | exact IHl]. }
    destruct Hstep as (Hin1 & Hd1 & Ha1).
    destruct (IH st1 Hin1) as (Hin2 & Hd2 & Ha2).
    rewrite Hd2, Ha2. auto.
  - cbn [final].
    destruct (iteration_raised v e st st1 Hit) as [(_ & _ & ->) | (_ & _ & ->)];
      cbn [mark_scraped scraped_urls metadata]; repeat split; auto.
    apply set_add_intro1. exact Hin.
Qed.

Lemma entries_with_image (pre : list string) (st : @state World) :
  processed pre st ->
  Forall (fun kv => final_url (snd kv) <> None ->
                    In (filename (snd kv)) (images (staging st)))
         (metadata st).
Proof.
  intros (_ & _ & _ & _ & He & _).
  eapply Forall_impl; [| exact He]. intros kv (_ & _ & Hf). exact Hf.
Qed.

(** C2. The signal is read at the head of every iteration; when it is set
    the loop raises [ProcessorInterruptedException] there, leaving the state
    as it was.  When [get_items] is interrupted, the images of the URLs
    captured so far are in the staging area, but no metadata document is:
    it is written only when the loop has run to its end. *)
Theorem interruption_aborts (urls : list string) (w : World) :
  (forall u rest st,
     interrupted (world st) = true ->
     capture_loop p (u :: rest) st
     = Raised (ProcessorInterruptedException
                 "Interrupted while making screenshots") st) /\
  (forall msg st,
     get_items p urls w = Raised (ProcessorInterruptedException msg) st ->
     interrupted (world st) = true /\
     (exists k, k < List.length urls /\ done st = k /\
                keys (metadata st) = first_seen (firstn k urls)) /\
     Forall (fun kv => final_url (snd kv) <> None ->
                       In (filename (snd kv)) (images (staging st)))
            (metadata st) /\
     metadata_json (staging st) = None) /\
  (forall st,
     get_items p urls w = Returned st ->
     metadata_json (staging st) = Some (metadata st) /\
     keys (metadata st) = first_seen urls).
Proof.
  split; [| split].
  - intros u rest st Hi. cbn [capture_loop].
    now rewrite (iteration_interrupted u st Hi).
  - intros msg st Hg. unfold get_items in Hg.
    set (w0 := if ignore_cookies p then enable_firefox_extension w else w) in Hg.
    destruct (capture_loop p urls (initial w0)) as [st1|e st1] eqn:Hl;
      [discriminate |].
    injection Hg as -> ->.
    destruct (capture_loop_raised urls [] (initial w0) _ _
                (processed_initial w0) Hl)
      as (k & st0 & Hk & Hp & [(_ & Hi & ->) | (He & _)]); [| discriminate].
    cbn [app] in Hp. split; [exact Hi |].
    pose proof (entries_with_image _ _ Hp) as Himg.
    destruct Hp as (Hd & _ & _ & Hkeys & _ & Hj).
    repeat split; try assumption.
    exists k. rewrite Hd, length_firstn. repeat split; [lia | lia | exact Hkeys].
  - intros st Hg. unfold get_items in Hg.
    set (w0 := if ignore_cookies p then enable_firefox_extension w else w) in Hg.
    destruct (capture_loop p urls (initial w0)) as [st1|e st1] eqn:Hl;
      [| discriminate].
    injection Hg as <-.
    destruct (capture_loop_processed urls [] (initial w0) st1
                (processed_initial w0) Hl) as (_ & _ & _ & Hkeys & _).
    split; [reflexivity | exact Hkeys].
Qed.

(** C5. Whatever the list of URLs, the metadata holds at most one entry per
    URL.  A URL that occurred earlier in the list is skipped: the iteration
    adds one to [done] and changes nothing else, so no page is requested and
    [screenshots] stays; the entry written at the first occurrence is the
    one found when the loop ends. *)
Theorem duplicates_skipped (urls : list string) (w : World) :
  NoDup (keys (metadata (final (capture_loop p urls (initial w))))) /\
  (forall pre u post st,
     urls = (pre ++ u :: post)%list ->
     In u pre ->
     capture_loop p pre (initial w) = Returned st ->
     interrupted (world st) = false ->
     exists st' r,
       iteration p u st = Returned st' /\
       done st' = done st + 1 /\
       screenshots st' = screenshots st /\
       nav_log st' = nav_log st /\
       world st' = world st /\
       staging st' = staging st /\
       metadata st' = metadata st /\
       dict_get u (metadata st) = Some r /\
       dict_get u (metadata (final (capture_loop p urls (initial w))))
       = Some r).
Proof.
  split.
  - apply (final_keys_NoDup urls [] (initial w)), processed_initial.
  - intros pre u post st -> Hin Hl Hi.
    pose proof (capture_loop_processed pre [] (initial w) st
                  (processed_initial w) Hl) as Hp.
    cbn [app] in Hp. destruct Hp as (_ & _ & Hsc & Hk & _).
    assert (Hs : set_In u (scraped_urls st)).
    { rewrite Hsc. now apply first_seen_In. }
    destruct (dict_get_in_keys u (metadata st)) as [r Hr].
    { rewrite Hk. now apply first_seen_In. }
    exists (skip_duplicate st), r.
    split; [apply iteration_duplicate;
            [exact Hi | now apply set_mem_correct2] |].
    cbn [skip_duplicate done screenshots nav_log world staging metadata].
    repeat split; try assumption.
    rewrite capture_loop_app, Hl.
    destruct (scraped_persists u (u :: post) st Hs) as (_ & Hd & _).
    now rewrite Hd.
Qed.

(** C9. A URL is put in [scraped_urls] before its first attempt: the
    attempts run from the state in which it is already marked.  So when both
    attempts fail it stays there with its failed entry: whatever URLs
    follow, repetitions of it included, the loop requests it no more, and
    the entry found when the loop ends is that failed entry. *)
Theorem failed_url_not_retried (u : string) (rest : list string)
  (st st' : state) :
  interrupted (world st) = false ->
  set_mem string_dec u (scraped_urls st) = false ->
  iteration p u st = Returned st' ->
  screenshots st' = screenshots st ->
  (exists name errors st1,
     set_In u (scraped_urls (mark_scraped u st)) /\
     capture_attempts p 2 u (name ++ ".png") 0 [] (mark_scraped u st)
     = (false, errors, st1) /\
     st' = record_result u
             (freeze u (name ++ ".png") false errors (world st1)) st1) /\
  set_In u (scraped_urls st') /\
  attempts_on u st' = (attempts_on u st ++ [(u, 1); (u, 2)])%list /\
  attempts_on u (final (capture_loop p rest st')) = attempts_on u st' /\
  exists r,
    dict_get u (metadata st') = Some r /\
    final_url r = None /\ subject r = None /\
    dict_get u (metadata (final (capture_loop p rest st'))) = Some r.
Proof.
  intros Hi Hm Hit Hshots.
  destruct (iteration_fresh u st Hi Hm)
    as [(e & _ & He) | (name & success & errors & st1 & _ & C & E & He)];
    rewrite He in Hit; [discriminate |].
  injection Hit as <-.
  cbn [record_result screenshots] in Hshots.
  assert (Hmark : set_In u (scraped_urls (mark_scraped u st))).
  { cbn [mark_scraped scraped_urls]. apply set_add_intro2. reflexivity. }
  destruct E as [st1 B L S I | e st1 He1 B L S I | e1 e2 st1 He1 He2 B L S I];
    cbn [mark_scraped screenshots] in S; try lia.
  split; [exists name, [e1; e2], st1; auto |].
  destruct B as (_ & Bs & _ & _).
  set (st2 := record_result u _ st1).
  assert (Hs2 : set_In u (scraped_urls st2)).
  { subst st2. cbn [record_result scraped_urls]. now rewrite Bs. }
  destruct (scraped_persists u rest st2 Hs2) as (_ & Hd & Ha).
  split; [exact Hs2 |]. split.
  - unfold attempts_on. subst st2. cbn [record_result nav_log].
    rewrite L. cbn [mark_scraped nav_log]. rewrite filter_app. cbn.
    now rewrite String.eqb_refl.
  - split; [exact Ha |].
    eexists. rewrite Hd. subst st2. cbn [record_result metadata].
    rewrite dict_get_set_same. repeat split.
Qed.

Lemma attempt_url_ok (u file : string) (success : bool)
  (errors : list string) (st st' : state) :
  attempt_url p u st = Ok (file, success, errors, st') ->
  attempts_end u file (mark_scraped u st) success errors st'.
Proof.
  unfold attempt_url. cbn [mark_scraped world].
  destruct (filename_from_url (now_strftime (world st)) u) as [name|e];
    [| discriminate].
  cbn [bind].
  pose proof (capture_attempts_end u (name ++ ".png") (mark_scraped u st)) as E.
  destruct (capture_attempts p 2 u (name ++ ".png") 0 [] (mark_scraped u st))
    as [[success1 errors1] st1].
  intros [= <- <- <- <-]. exact E.
Qed.

(** Where the attempts on a URL have ended and its entry is not yet
    recorded, [screenshots] is at most one ahead of [done], and [done] is
    below the number of URLs. *)
Lemma after_attempts_counters (rest : list string) :
  forall pre st,
  processed pre st ->
  Forall (fun s => screenshots s <= done s + 1 /\
                   done s < List.length pre + List.length rest)
         (after_attempts p rest st).
Proof.
  induction rest as [|u rest IH]; intros pre st Hp; cbn [after_attempts];
    [constructor |].
  apply Forall_app. split.
  - destruct (interrupted (world st)); [constructor |].
    destruct (set_mem string_dec u (scraped_urls st)); [constructor |].
    destruct (attempt_url p u st) as [[[[file success] errors] st1]|e] eqn:A;
      [| constructor].
    constructor; [| constructor].
    apply attempt_url_ok in A.
    destruct Hp as (Hd & Hs & _).
    assert (Hc : screenshots st1 <= screenshots st + 1 /\ done st1 = done st).
    { destruct A as [st1 B L S I | e st1 He1 B L S I
                    | e1 e2 st1 He1 He2 B L S I];
        destruct B as (Bd & _); cbn [mark_scraped screenshots done] in *;
        lia. }
    cbn [List.length]. lia.
  - destruct (iteration p u st) as [st1|e st1] eqn:Hit; [| constructor].
    eapply Forall_impl;
      [| apply (IH (pre ++ [u])%list st1);
         eapply iteration_processed; eassumption].
    intros s (Hs & Hd). rewrite length_app in Hd. cbn [List.length] in *.
    split; [exact Hs | lia].
Qed.

(** C10. At every point of the loop [done] is at most the number of URLs
    given and [screenshots] is at most [done + 1].  Whenever the condition
    of the loop is evaluated, [screenshots <= done]; where the attempts on a
    URL have ended and its entry is not yet recorded, [screenshots] can be
    one ahead of [done], and no more.  When the loop runs to its end, [done]
    is the number of URLs, the metadata has one entry for each distinct URL,
    in the order of first occurrence, and every entry has a timestamp. *)
Theorem loop_counters (urls : list string) (w : World) :
  Forall (fun s => screenshots s <= done s /\ done s <= List.length urls)
         (loop_heads p urls (initial w)) /\
  Forall (fun s => screenshots s <= done s + 1 /\ done s < List.length urls)
         (after_attempts p urls (initial w)) /\
  (forall st,
     capture_loop p urls (initial w) = Returned st ->
     done st = List.length urls /\
     keys (metadata st) = first_seen urls /\
     NoDup (keys (metadata st)) /\
     (forall u, In u (keys (metadata st)) <-> In u urls) /\
     Forall (fun kv => timestamp (snd kv) <> None) (metadata st)).
Proof.
  split; [| split].
  - eapply Forall_impl;
      [| apply (loop_heads_processed urls [] (initial w)), processed_initial].
    intros s (k & Hk & Hd & Hs & _). cbn [app] in Hd.
    rewrite length_firstn in Hd. split; [exact Hs | lia].
  - apply (after_attempts_counters urls [] (initial w)), processed_initial.
  - intros st Hl.
    destruct (capture_loop_processed urls [] (initial w) st
                (processed_initial w) Hl) as (Hd & _ & _ & Hk & He & _).
    cbn [app] in Hd, Hk. rewrite Hk.
    repeat split; try assumption.
    + apply first_seen_NoDup.
    + apply first_seen_In.
    + apply first_seen_In.
    + eapply Forall_impl; [| exact He]. intros kv (_ & Ht & _). exact Ht.
Qed.

End CaptureFacts.

(** ** The loop on the small browser *)

Section ToyRuns.

Import PyStr Toy.




(** The scenario of two equal URLs and a third: the preprocessor keeps all
    three, the loop records two entries and counts three. *)
Example duplicate_scenario :
  validate_query
    {| q_query := Some ("https://a.com" ++ newline ++ "https://a.com"
                        ++ newline ++ "https://b.com");
       q_rest := [] |}
  = Ok {| sq_query := ["https://a.com"; "https://a.com"; "https://b.com"];
          sq_rest := [] |}
  /\
  exists st,
    get_items Toy.params ["https://a.com"; "https://a.com"; "https://b.com"]
      (Toy.fresh 100) = Returned st /\
    keys (metadata st) = ["https://a.com"; "https://b.com"] /\
    done st = 3 /\ screenshots st = 2.
Proof.
  split; [reflexivity |]. eexists. split; [reflexivity |]. repeat split.
Qed.



(** C3. An archive URL with no scheme after the timestamp, at which the
    browser raises whenever asked: [validate_query] accepts and rewrites it,
    and [get_items] makes no attempt on it.  [filename_from_url] raises
    [IndexError] before the first attempt, the URL gets no entry, and the
    batch ends there, the next URL unrequested. *)
Lemma unnamed_url_never_attempted :
  validate_query
    {| q_query := Some "https://web.archive.org/web/2020/down.org,https://a.com";
       q_rest := [] |}
  = Ok {| sq_query := ["https://web.archive.org/web/2020if_/down.org";
                       "https://a.com"];
          sq_rest := [] |}
  /\
  navigation_raises_twice "https://web.archive.org/web/2020if_/down.org"
    (initial (Toy.fresh 100)) /\
  exists st,
    get_items Toy.params
      ["https://web.archive.org/web/2020if_/down.org"; "https://a.com"]
      (Toy.fresh 100)
    = Raised IndexError st /\
    nav_log st = [] /\
    metadata st = [] /\
    images (staging st) = [] /\
    metadata_json (staging st) = None /\
    done st = 0.
Proof.
  split; [vm_compute; reflexivity |].
  split; [split; discriminate |].
  eexists. split; [vm_compute; reflexivity |]. repeat split.
Qed.

(** A page that loads at the second request only: the screenshot is saved
    and the entry keeps the message of the first attempt. *)
Lemma saved_with_error_recorded :
  exists st' r,
    iteration Toy.params "https://flaky.org/x" (initial (Toy.fresh 100))
    = Returned st' /\
    dict_get "https://flaky.org/x" (metadata st') = Some r /\
    images (staging st') = [filename r] /\
    screenshots st' = 1 /\
    final_url r = Some "https://flaky.org/x" /\
    subject r = Some "Title of https://flaky.org/x" /\
    error r = "Attempt 1: connection reset" /\
    error r <> "".
Proof.
  do 2 eexists. split; [reflexivity |]. split; [reflexivity |].
  repeat split. discriminate.
Qed.

Lemma capture_result_fields_witness :
  interrupted (world (initial (Toy.fresh 100))) = false /\
  set_mem string_dec "https://flaky.org/x"
    (scraped_urls (initial (Toy.fresh 100))) = false /\
  exists r,
    dict_get "https://flaky.org/x"
      (metadata (final (iteration Toy.params "https://flaky.org/x"
                          (initial (Toy.fresh 100))))) = Some r /\
    url r = "https://flaky.org/x".
Proof.
  assert (Hi : interrupted (world (initial (Toy.fresh 100))) = false)
    by reflexivity.
  assert (Hm : set_mem string_dec "https://flaky.org/x"
                 (scraped_urls (initial (Toy.fresh 100))) = false)
    by reflexivity.
  assert (Hit : iteration Toy.params "https://flaky.org/x"
                  (initial (Toy.fresh 100))
                = Returned (final (iteration Toy.params "https://flaky.org/x"
                                     (initial (Toy.fresh 100)))))
    by (vm_compute; reflexivity).
  split; [exact Hi |]. split; [exact Hm |].
  destruct (capture_result_fields Toy.params "https://flaky.org/x"
              (initial (Toy.fresh 100)) _ Hi Hm Hit) as (r & Hr & Hu & _).
  exists r. split; [exact Hr | exact Hu].
Defined.

(** The signal set after the first of five URLs: the exception leaves the
    loop with one entry in memory, one image in the staging area and no
    metadata document there. *)
Lemma interrupted_without_metadata_document :
  exists st,
    get_items Toy.params
      ["https://a.com"; "https://b.com"; "https://c.com"; "https://d.com";
       "https://e.com"] (Toy.fresh 1)
    = Raised (ProcessorInterruptedException
                "Interrupted while making screenshots") st /\
    done st = 1 /\
    keys (metadata st) = ["https://a.com"] /\
    images (staging st) = ["a.com-20240101000000-13.png"] /\
    metadata_json (staging st) = None.
Proof. eexists. split; [reflexivity |]. repeat split. Qed.

Lemma navigation_always_raises_witness :
  navigation_raises_twice "https://down.org" (initial (Toy.fresh 100)) /\
  exists e1 e2 st',
    iteration Toy.params "https://down.org" (initial (Toy.fresh 100))
    = Returned st' /\
    nav_log st' = [("https://down.org", 1); ("https://down.org", 2)] /\
    screenshots st' = 0 /\
    done st' = 1 /\
    capture_loop Toy.params ["https://down.org"; "https://a.com"]
      (initial (Toy.fresh 100))
    = capture_loop Toy.params ["https://a.com"] st' /\
    snd (fst (capture_attempts Toy.params 2 "https://down.org"
                "down.org-20240101000000-16.png" 0 []
                (mark_scraped "https://down.org" (initial (Toy.fresh 100)))))
    = [attempt_error 1 e1; attempt_error 2 e2].
Proof.
  assert (Hnav : navigation_raises_twice "https://down.org"
                   (initial (Toy.fresh 100)))
    by (split; discriminate).
  split; [exact Hnav |].
  assert (Hi : interrupted (world (initial (Toy.fresh 100))) = false)
    by reflexivity.
  assert (Hm : set_mem string_dec "https://down.org"
                 (scraped_urls (initial (Toy.fresh 100))) = false)
    by reflexivity.
  assert (Hf : filename_from_url
                 (now_strftime (world (initial (Toy.fresh 100))))
                 "https://down.org" = Ok "down.org-20240101000000-16")
    by (vm_compute; reflexivity).
  destruct (navigation_always_raises Toy.params "https://down.org"
              "down.org-20240101000000-16" ["https://a.com"]
              (initial (Toy.fresh 100)) Hnav Hi Hm Hf)
    as (e1 & e2 & st' & He & Hit & Hl & Hn & Hs & _ & Hd & _).
  exists e1, e2, st'. repeat split; assumption.
Defined.

Lemma failed_url_not_retried_witness :
  interrupted (world (initial (Toy.fresh 100))) = false /\
  attempts_on "https://down.org"
    (final (capture_loop Toy.params
              ["https://a.com"; "https://down.org"; "https://down.org"]
              (final (iteration Toy.params "https://down.org"
                        (initial (Toy.fresh 100))))))
  = attempts_on "https://down.org"
      (final (iteration Toy.params "https://down.org"
                (initial (Toy.fresh 100)))).
Proof.
  assert (Hi : interrupted (world (initial (Toy.fresh 100))) = false)
    by reflexivity.
  assert (Hm : set_mem string_dec "https://down.org"
                 (scraped_urls (initial (Toy.fresh 100))) = false)
    by reflexivity.
  assert (Hit : iteration Toy.params "https://down.org"
                  (initial (Toy.fresh 100))
                = Returned (final (iteration Toy.params "https://down.org"
                                     (initial (Toy.fresh 100)))))
    by (vm_compute; reflexivity).
  assert (Hs : screenshots (final (iteration Toy.params "https://down.org"
                                     (initial (Toy.fresh 100))))
               = screenshots (initial (Toy.fresh 100)))
    by (vm_compute; reflexivity).
  split; [exact Hi |].
  destruct (failed_url_not_retried Toy.params "https://down.org"
              ["https://a.com"; "https://down.org"; "https://down.org"]
              (initial (Toy.fresh 100)) _ Hi Hm Hit Hs)
    as (_ & _ & _ & Ha & _).
  exact Ha.
Defined.

(** A page captured at the first attempt: where the attempts end,
    [screenshots] is already one and [done] still zero. *)
Lemma screenshots_ahead_of_done :
  exists s,
    In s (after_attempts Toy.params ["https://a.com"] (initial (Toy.fresh 100)))
    /\ screenshots s = 1 /\ done s = 0 /\ ~ (screenshots s <= done s).
Proof.
  eexists. split; [left; reflexivity |]. cbn. repeat split. lia.
Qed.

End ToyRuns.

(** * Further properties *)

(** ** Bookkeeping of the capture loop *)

Section BookkeepingFacts.

Context `{Library}.
Context {World : Type} `{Selenium World}.
Variable p : parameters.

Lemma dict_set_fresh {V : Type} (k : string) (v : V) (d : list (string * V)) :
  ~ In k (keys d) -> dict_set k v d = (d ++ [(k, v)])%list.
Proof.
  induction d as [|[k' v'] d IH]; simpl; [reflexivity |].
  intros Hn. destruct (String.eqb_spec k k') as [-> | _].
  - exfalso. apply Hn. now left.
  - rewrite IH; [reflexivity |]. intros Hin. apply Hn. now right.
Qed.

(** A property of the state that every returning iteration keeps at the head
    of the loop, and that marking a URL keeps, holds of the state in which
    the loop ends, however it ends. *)
Lemma capture_loop_keeps (I : @state World -> Prop) :
  (forall pre u st st',
     processed pre st -> I st -> iteration p u st = Returned st' -> I st') ->
  (forall u st, I st -> I (mark_scraped u st)) ->
  forall rest pre st,
    processed pre st -> I st -> I (final (capture_loop p rest st)).
Proof.
  intros Hstep Hmark.
  induction rest as [|u rest IH]; intros pre st Hp Hi; simpl; [exact Hi |].
  destruct (iteration p u st) as [st1|e st1] eqn:Hit.
  - apply (IH (pre ++ [u])%list).
    + eapply iteration_processed; eassumption.
    + eapply Hstep; eassumption.
  - cbn [final].
    destruct (iteration_raised p u e st st1 Hit) as [(_ & _ & ->) | (_ & _ & ->)];
      [exact Hi | now apply Hmark].
Qed.

Lemma iteration_image_per_capture (pre : list string) (u : string)
  (st st' : state) :
  processed pre st -> image_per_capture st ->
  iteration p u st = Returned st' -> image_per_capture st'.
Proof.
  intros (_ & _ & Hsc & Hk & _) (Himg & Hcount) Hit.
  destruct (interrupted (world st)) eqn:Hi.
  { rewrite (iteration_interrupted p u st Hi) in Hit. discriminate. }
  destruct (set_mem string_dec u (scraped_urls st)) eqn:Hm.
  - rewrite (iteration_duplicate p u st Hi Hm) in Hit. injection Hit as <-.
    split; assumption.
  - destruct (iteration_fresh p u st Hi Hm)
      as [(e & _ & He) | (name & success & errors & st1 & _ & _ & E & He)];
      rewrite He in Hit; [discriminate |].
    injection Hit as <-.
    apply set_mem_complete1 in Hm. unfold set_In in Hm.
    rewrite Hsc, <- Hk in Hm.
    unfold image_per_capture.
    cbn [record_result metadata staging screenshots].
    destruct E as [st1 B L S I | e st1 He1 B L S I | e1 e2 st1 He1 He2 B L S I];
      destruct B as (_ & _ & Bm & _);
      cbn [mark_scraped metadata staging screenshots] in Bm, S, I;
      rewrite Bm, (dict_set_fresh u _ _ Hm), filter_app, map_app, I, S;
      cbn; rewrite ?app_nil_r, ?length_app, <- Himg, Hcount; cbn;
      split; reflexivity.
Qed.

Lemma image_per_capture_final (urls : list string) (w : World) :
  image_per_capture (final (capture_loop p urls (initial w))).
Proof.
  apply (capture_loop_keeps image_per_capture) with (pre := []).
  - exact iteration_image_per_capture.
  - intros u st Hi. exact Hi.
  - apply processed_initial.
  - split; reflexivity.
Qed.

Lemma dict_get_In {V : Type} (k : string) (v : V) (d : list (string * V)) :
  dict_get k d = Some v -> In (k, v) d.
Proof.
  induction d as [|[k' v'] d IH]; simpl; [discriminate |].
  destruct (String.eqb_spec k k') as [-> | _].
  - intros [= ->]. now left.
  - intros Hd. right. now apply IH.
Qed.

Lemma entries_under_their_url (urls : list string) (w : World) :
  Forall (fun kv => url (snd kv) = fst kv)
         (metadata (final (capture_loop p urls (initial w)))).
Proof.
  apply (capture_loop_keeps
           (fun st => Forall (fun kv => url (snd kv) = fst kv) (metadata st)))
    with (pre := []).
  - intros pre u st st' Hp _ Hit.
    destruct (iteration_processed p pre u st st' Hp Hit)
      as (_ & _ & _ & _ & He & _).
    eapply Forall_impl; [| exact He]. intros kv (Hu & _). exact Hu.
  - intros u st Hi. exact Hi.
  - apply processed_initial.
  - constructor.
Qed.

Lemma get_items_final (urls : list string) (w : World) :
  exists w0,
    metadata (final (get_items p urls w))
    = metadata (final (capture_loop p urls (initial w0))) /\
    images (staging (final (get_items p urls w)))
    = images (staging (final (capture_loop p urls (initial w0)))) /\
    screenshots (final (get_items p urls w))
    = screenshots (final (capture_loop p urls (initial w0))) /\
    done (final (get_items p urls w))
    = done (final (capture_loop p urls (initial w0))) /\
    nav_log (final (get_items p urls w))
    = nav_log (final (capture_loop p urls (initial w0))) /\
    (forall st, get_items p urls w = Returned st ->
                exists st0, capture_loop p urls (initial w0) = Returned st0) /\
    (forall e st, get_items p urls w = Raised e st ->
                  capture_loop p urls (initial w0) = Raised e st).
Proof.
  unfold get_items.
  exists (if ignore_cookies p then enable_firefox_extension w else w).
  destruct (capture_loop p urls _) as [st1|e st1]; cbn;
    repeat split; try discriminate; eauto.
Qed.

(** X1. However [get_items] ends, [screenshots] is the number of the
    entries of the metadata whose capture succeeded, the image of each of
    them was saved to the staging area under the name the entry gives, and
    every entry is filed under its own URL; when [get_items] returns, every
    URL it was given can be looked up. *)
Theorem staging_matches_metadata (urls : list string) (w : World) :
  screenshots (final (get_items p urls w))
  = List.length (filter captured (metadata (final (get_items p urls w)))) /\
  Forall (fun kv =>
            captured kv = true ->
            In (filename (snd kv))
               (images (staging (final (get_items p urls w)))))
         (metadata (final (get_items p urls w))) /\
  Forall (fun kv => url (snd kv) = fst kv)
         (metadata (final (get_items p urls w))) /\
  (forall st u,
     get_items p urls w = Returned st -> In u urls ->
     exists r, dict_get u (metadata st) = Some r /\ url r = u).
Proof.
  destruct (get_items_final urls w)
    as (w0 & Hm & Hi & Hs & _ & _ & Hret & _).
  destruct (image_per_capture_final urls w0) as (Himg & Hcount).
  rewrite Hm, Hi, Hs.
  split; [rewrite Hcount, Himg; apply length_map |].
  split.
  { apply Forall_forall. intros kv Hin Hc. rewrite Himg.
    apply (in_map (fun kv => filename (snd kv))).
    apply filter_In. split; assumption. }
  split; [apply entries_under_their_url |].
  intros st u Hg Hin.
  pose proof (entries_under_their_url urls w0) as Hu.
  rewrite <- Hm, Hg in Hu. cbn [final] in Hu.
  destruct (Hret st Hg) as (st0 & Hl).
  destruct (capture_loop_processed p urls [] (initial w0) st0
              (processed_initial w0) Hl) as (_ & _ & _ & Hk & _).
  rewrite Hg, Hl in Hm. cbn [final app] in Hm, Hk. rewrite <- Hm in Hk.
  destruct (dict_get_in_keys u (metadata st)) as [r Hr].
  { rewrite Hk. now apply first_seen_In. }
  exists r. split; [exact Hr |].
  apply dict_get_In in Hr.
  rewrite Forall_forall in Hu. exact (Hu _ Hr).
Qed.

Lemma fold_set_add_length (l : list string) :
  forall acc,
  List.length (fold_left (fun seen u => set_add string_dec u seen) l acc)
  <= List.length acc + List.length l.
Proof.
  induction l as [|u l IH]; intros acc; simpl; [lia |].
  specialize (IH (set_add string_dec u acc)).
  assert (List.length (set_add string_dec u acc) <= S (List.length acc)).
  { destruct (in_dec string_dec u acc) as [Hin | Hn].
    - rewrite (set_add_in u acc Hin). lia.
    - rewrite (set_add_fresh u acc Hn), length_app. simpl. lia. }
  lia.
Qed.

Lemma first_seen_length (l : list string) :
  List.length (first_seen l) <= List.length l.
Proof. apply (fold_set_add_length l []). Qed.

Lemma filter_split_length {A : Type} (f : A -> bool) (l : list A) :
  List.length (filter f l) + List.length (filter (fun x => negb (f x)) l)
  = List.length l.
Proof.
  induction l as [|x l IH]; simpl; [reflexivity |].
  destruct (f x); simpl; lia.
Qed.

(** X2. When [get_items] returns, [done - screenshots], the number it logs
    as the URLs that could not be screenshotted, is the number of
    repetitions in the list plus the number of entries that failed; the
    line is logged unless both are zero. *)
Theorem failures_reported (urls : list string) (w : World) (st : state) :
  get_items p urls w = Returned st ->
  done st - screenshots st
  = (List.length urls - List.length (first_seen urls))
    + List.length (filter (fun kv => negb (captured kv)) (metadata st)) /\
  could_not_be_screenshotted st
  = match (List.length urls - List.length (first_seen urls))
          + List.length (filter (fun kv => negb (captured kv)) (metadata st))
    with
    | O => None
    | S n => Some (S n)
    end.
Proof.
  intros Hg.
  destruct (get_items_final urls w)
    as (w0 & Hm & Hi & Hs & Hd & _ & Hret & _).
  destruct (Hret st Hg) as (st0 & Hl).
  destruct (image_per_capture_final urls w0) as (Himg & Hcount).
  destruct (capture_loop_processed p urls [] (initial w0) st0
              (processed_initial w0) Hl) as (Hdone & Hle & _ & Hk & _).
  rewrite Hg, Hl in Hm, Hs, Hd. rewrite Hl in Himg, Hcount.
  cbn [final app] in *. rewrite <- Hm in Hk, Himg. rewrite <- Hs in Hcount, Hle.
  rewrite <- Hd in Hdone, Hle.
  rewrite Himg, length_map in Hcount.
  pose proof (filter_split_length captured (metadata st)) as Hsplit.
  pose proof (first_seen_length urls) as Hfs.
  assert (Hlen : List.length (metadata st) = List.length (first_seen urls)).
  { rewrite <- Hk. unfold keys. now rewrite length_map. }
  assert (Hdiff : done st - screenshots st
                  = (List.length urls - List.length (first_seen urls))
                    + List.length (filter (fun kv => negb (captured kv))
                                     (metadata st))) by lia.
  split; [exact Hdiff |].
  unfold could_not_be_screenshotted. rewrite <- Hdiff.
  destruct (Nat.eqb_spec (screenshots st) (done st)) as [He | Hne].
  - rewrite He, Nat.sub_diag. reflexivity.
  - destruct (done st - screenshots st) eqn:Hz; [lia | reflexivity].
Qed.

(** However the loop ends, its last head state [st0] is that of a prefix of
    the list, and the state it ends in is [st0], or [st0] with one more URL
    marked when the name of that URL could not be derived. *)
Lemma capture_loop_ends (I : @state World -> Prop) :
  (forall pre u st st',
     processed pre st -> I st -> iteration p u st = Returned st' -> I st') ->
  forall rest pre st,
    processed pre st -> I st ->
    exists k st0,
      k <= List.length rest /\ processed (pre ++ firstn k rest) st0 /\ I st0 /\
      ((capture_loop p rest st = Returned st0 /\ k = List.length rest) \/
       (exists e, capture_loop p rest st = Raised e st0) \/
       (exists u, capture_loop p rest st
                  = Raised IndexError (mark_scraped u st0))).
Proof.
  intros Hstep.
  induction rest as [|u rest IH]; intros pre st Hp Hi.
  - exists 0, st. cbn. rewrite app_nil_r.
    split; [lia |]. split; [exact Hp |]. split; [exact Hi |]. left. auto.
  - cbn [capture_loop].
    destruct (iteration p u st) as [st1|e st1] eqn:Hit.
    + destruct (IH (pre ++ [u])%list st1) as (k & st0 & Hk & Hp0 & Hi0 & Hc).
      { eapply iteration_processed; eassumption. }
      { eapply Hstep; eassumption. }
      exists (S k), st0. cbn [firstn List.length].
      rewrite <- app_assoc in Hp0.
      split; [lia |]. split; [exact Hp0 |]. split; [exact Hi0 |].
      destruct Hc as [(Hr & ->) | Hc]; [left; auto | right; exact Hc].
    + exists 0, st. cbn [firstn List.length]. rewrite app_nil_r.
      split; [lia |]. split; [exact Hp |]. split; [exact Hi |].
      right.
      destruct (iteration_raised p u e st st1 Hit)
        as [(_ & _ & ->) | (-> & _ & ->)]; [left | right]; eauto.
Qed.

Lemma attempts_on_nav_log (u : string) (st st' : @state World) :
  nav_log st' = nav_log st -> attempts_on u st' = attempts_on u st.
Proof. unfold attempts_on. now intros ->. Qed.

Lemma iteration_requests_at_head (pre : list string) (u : string)
  (st st' : state) :
  processed pre st -> requests_at_head st ->
  iteration p u st = Returned st' -> requests_at_head st'.
Proof.
  intros _ (Hb & Hne & Hlo & Hhi) Hit.
  destruct (interrupted (world st)) eqn:Hi.
  { rewrite (iteration_interrupted p u st Hi) in Hit. discriminate. }
  destruct (set_mem string_dec u (scraped_urls st)) eqn:Hm.
  - rewrite (iteration_duplicate p u st Hi Hm) in Hit. injection Hit as <-.
    repeat split; try assumption; apply Hb.
  - destruct (iteration_fresh p u st Hi Hm)
      as [(e & _ & He) | (name & success & errors & st1 & _ & _ & E & He)];
      rewrite He in Hit; [discriminate |].
    injection Hit as <-.
    apply set_mem_complete1 in Hm.
    assert (Hnone : attempts_on u st = []).
    { destruct (attempts_on u st) eqn:Ha; [reflexivity |].
      exfalso. apply Hm. apply (Hb u). rewrite Ha. discriminate. }
    assert (Hlog : same_batch (mark_scraped u st) st1 /\
                   (nav_log st1 = (nav_log st ++ [(u, 1)])%list \/
                    nav_log st1 = (nav_log st ++ [(u, 1); (u, 2)])%list)).
    { destruct E as [st1 B L S I | e st1 He1 B L S I
                    | e1 e2 st1 He1 He2 B L S I]; split; auto. }
    destruct Hlog as ((_ & Bs & _ & _) & Hlog).
    cbn [mark_scraped scraped_urls] in Bs.
    assert (Hlen : List.length (set_add string_dec u (scraped_urls st))
                   = S (List.length (scraped_urls st))).
    { rewrite (set_add_fresh u _ Hm), length_app. cbn. lia. }
    unfold requests_at_head, requests_bounded, attempts_on in *.
    cbn [record_result scraped_urls nav_log].
    rewrite Bs, Hlen.
    assert (Hfilter : forall v l,
               filter (fun e : string * nat => String.eqb (fst e) v)
                      (nav_log st ++ l)
               = (filter (fun e => String.eqb (fst e) v) (nav_log st)
                  ++ filter (fun e => String.eqb (fst e) v) l)%list)
      by (intros; apply filter_app).
    split; [| split].
    + intros v. destruct (string_dec v u) as [-> | Hvu].
      * split; [| intros _; apply set_add_intro2; reflexivity].
        destruct Hlog as [-> | ->]; rewrite Hfilter, Hnone; cbn;
          rewrite String.eqb_refl; auto.
      * assert (Hsame : filter (fun e : string * nat => String.eqb (fst e) v)
                               (nav_log st1)
                        = filter (fun e => String.eqb (fst e) v) (nav_log st)).
        { apply String.eqb_neq in Hvu. rewrite String.eqb_sym in Hvu.
          destruct Hlog as [-> | ->]; rewrite Hfilter; cbn; rewrite Hvu;
            apply app_nil_r. }
        rewrite Hsame. split; [apply Hb |].
        intros Hv. apply set_add_intro1. now apply Hb.
    + intros v Hv. apply set_add_elim in Hv as [-> | Hv].
      * destruct Hlog as [-> | ->]; rewrite Hfilter, Hnone; cbn;
          rewrite String.eqb_refl; discriminate.
      * destruct (string_dec v u) as [-> | Hvu]; [contradiction |].
        apply String.eqb_neq in Hvu. rewrite String.eqb_sym in Hvu.
        destruct Hlog as [-> | ->]; rewrite Hfilter; cbn; rewrite Hvu;
          rewrite app_nil_r; now apply Hne.
    + destruct Hlog as [-> | ->]; rewrite length_app; cbn; lia.
Qed.

Lemma requests_at_head_initial (w : World) : requests_at_head (initial w).
Proof.
  repeat split; cbn; auto.
Qed.

(** What the last head state tells of the state the loop ends in. *)
Lemma loop_end_requests (urls : list string) (w : World) :
  exists k st0,
    k <= List.length urls /\
    processed (firstn k urls) st0 /\ requests_at_head st0 /\
    nav_log (final (capture_loop p urls (initial w))) = nav_log st0 /\
    metadata (final (capture_loop p urls (initial w))) = metadata st0 /\
    (forall st, capture_loop p urls (initial w) = Returned st ->
                st = st0 /\ k = List.length urls).
Proof.
  destruct (capture_loop_ends requests_at_head iteration_requests_at_head
              urls [] (initial w) (processed_initial w)
              (requests_at_head_initial w))
    as (k & st0 & Hk & Hp & Hi & Hc).
  exists k, st0. cbn [app] in Hp.
  split; [exact Hk |]. split; [exact Hp |]. split; [exact Hi |].
  destruct Hc as [(-> & ->) | [(e & ->) | (u & ->)]]; cbn [final];
    repeat split; try discriminate; try congruence.
Qed.

Lemma firstn_In_urls (k : nat) (l : list string) (u : string) :
  In u (firstn k l) -> In u l.
Proof.
  intros Hin. rewrite <- (firstn_skipn k l). apply in_or_app. now left.
Qed.

(** X3. However [get_items] ends, [driver.get] was called for each URL at
    most twice, as attempts one and two, whatever the number of times the
    URL is in the list, and never for a URL that is not in the list; when
    [get_items] returns, each URL of the list was requested, and the number
    of requests lies between the number of distinct URLs and twice that
    number. *)
Theorem requests_per_url (urls : list string) (w : World) :
  (forall u,
     (attempts_on u (final (get_items p urls w)) = [] \/
      attempts_on u (final (get_items p urls w)) = [(u, 1)] \/
      attempts_on u (final (get_items p urls w)) = [(u, 1); (u, 2)]) /\
     (~ In u urls -> attempts_on u (final (get_items p urls w)) = [])) /\
  List.length (nav_log (final (get_items p urls w)))
  <= 2 * List.length urls /\
  (forall st,
     get_items p urls w = Returned st ->
     (forall u, In u urls -> attempts_on u st <> []) /\
     List.length (first_seen urls) <= List.length (nav_log st) /\
     List.length (nav_log st) <= 2 * List.length (first_seen urls)).
Proof.
  destruct (get_items_final urls w)
    as (w0 & _ & _ & _ & _ & Hn & Hret & _).
  destruct (loop_end_requests urls w0)
    as (k & st0 & Hk & Hp & (Hb & Hne & Hlo & Hhi) & Hn0 & _ & Hr0).
  rewrite Hn0 in Hn.
  destruct Hp as (_ & _ & Hsc & _).
  split; [| split].
  - intros u. rewrite (attempts_on_nav_log u st0 _ Hn).
    split; [apply Hb |].
    intros Hnot. destruct (attempts_on u st0) eqn:Ha; [reflexivity |].
    exfalso. apply Hnot. apply (firstn_In_urls k).
    apply first_seen_In. rewrite <- Hsc. apply Hb. rewrite Ha. discriminate.
  - rewrite Hn. rewrite Hsc in Hhi.
    pose proof (first_seen_length (firstn k urls)) as Hfs.
    rewrite length_firstn in Hfs. lia.
  - intros st Hg. destruct (Hret st Hg) as (st1 & Hl).
    destruct (Hr0 st1 Hl) as (-> & ->).
    rewrite Hg in Hn. cbn [final] in Hn. rewrite firstn_all in Hsc.
    split.
    + intros u Hin. rewrite (attempts_on_nav_log u st0 st Hn).
      apply Hne. rewrite Hsc. now apply first_seen_In.
    + rewrite Hn, <- Hsc. split; assumption.
Qed.

Lemma dict_get_not_in_keys {V : Type} (k : string) (d : list (string * V)) :
  ~ In k (keys d) -> dict_get k d = None.
Proof.
  induction d as [|[k' v'] d IH]; simpl; [reflexivity |].
  intros Hn. destruct (String.eqb_spec k k') as [-> | _].
  - exfalso. apply Hn. now left.
  - apply IH. intros Hin. apply Hn. now right.
Qed.

(** X4. [get_items] does not catch the [IndexError] of [filename_from_url].
    When the name of a URL met for the first time cannot be derived, the
    exception ends the batch: the URL is marked as scraped and has no entry,
    nothing is requested for it or for any URL not met before, and the
    entries collected so far are in no metadata document. *)
Theorem underivable_name_aborts (pre post : list string) (u : string)
  (w : World) (st : state) :
  capture_loop p pre
    (initial (if ignore_cookies p then enable_firefox_extension w else w))
  = Returned st ->
  ~ In u pre ->
  interrupted (world st) = false ->
  filename_from_url (now_strftime (world st)) u = Raise IndexError ->
  get_items p (pre ++ u :: post) w = Raised IndexError (mark_scraped u st) /\
  dict_get u (metadata (mark_scraped u st)) = None /\
  set_In u (scraped_urls (mark_scraped u st)) /\
  keys (metadata (mark_scraped u st)) = first_seen pre /\
  metadata_json (staging (mark_scraped u st)) = None /\
  (forall v, ~ In v pre -> attempts_on v (mark_scraped u st) = []).
Proof.
  intros Hl Hnot Hi Hf.
  set (w0 := if ignore_cookies p then enable_firefox_extension w else w) in *.
  destruct (capture_loop_ends requests_at_head iteration_requests_at_head
              pre [] (initial w0) (processed_initial w0)
              (requests_at_head_initial w0))
    as (k & st0 & Hk & Hp & (Hb & _) & Hc).
  rewrite Hl in Hc.
  destruct Hc as [([= <-] & ->) | [(e & He) | (v & He)]]; try discriminate.
  cbn [app] in Hp. rewrite firstn_all in Hp.
  destruct Hp as (_ & _ & Hsc & Hkeys & _ & Hj).
  assert (Hm : set_mem string_dec u (scraped_urls st) = false).
  { apply set_mem_complete2. unfold set_In. rewrite Hsc.
    intros Hin. apply Hnot. now apply first_seen_In. }
  assert (Hit : iteration p u st = Raised IndexError (mark_scraped u st)).
  { unfold iteration, attempt_url. rewrite Hi, Hm.
    cbn [mark_scraped world]. rewrite Hf. reflexivity. }
  split.
  - unfold get_items. fold w0. rewrite capture_loop_app, Hl.
    cbn [capture_loop]. now rewrite Hit.
  - cbn [mark_scraped metadata scraped_urls staging].
    split; [apply dict_get_not_in_keys; rewrite Hkeys;
            intros Hin; apply Hnot; now apply first_seen_In |].
    split; [apply set_add_intro2; reflexivity |].
    split; [exact Hkeys |]. split; [exact Hj |].
    intros v Hv. unfold attempts_on. cbn [mark_scraped nav_log].
    fold (attempts_on v st).
    destruct (attempts_on v st) eqn:Ha; [reflexivity |].
    exfalso. apply Hv. apply first_seen_In. rewrite <- Hsc.
    apply (Hb v). rewrite Ha. discriminate.
Qed.

Lemma validate_query_length (q : query) (out : safe_query) :
  validate_query q = Ok out ->
  (Z.of_nat (List.length (sq_query out)) <= max_sites)%Z.
Proof.
  rewrite validate_query_unfold.
  destruct (String.eqb (raw_text q) ""); [discriminate |].
  destruct (Z.gtb_spec (Z.of_nat (List.length (survivors q))) max_sites)
    as [Hm|Hm]; [discriminate |].
  destruct (survivors q) as [|u l] eqn:Hs; [discriminate |].
  intros [= <-]. cbn [sq_query List.length map] in *.
  rewrite length_map. exact Hm.
Qed.

(** X5. A query that [validate_query] accepted never yields more than
    [max_sites] images, nor more than [max_sites] entries, nor more than
    twice [max_sites] page requests, however [get_items] ends on it. *)
Theorem batch_within_max_sites (q : query) (out : safe_query) (w : World) :
  validate_query q = Ok out ->
  (Z.of_nat (List.length
               (images (staging (final (get_items p (sq_query out) w)))))
   <= max_sites)%Z /\
  (Z.of_nat (List.length (metadata (final (get_items p (sq_query out) w))))
   <= max_sites)%Z /\
  (Z.of_nat (List.length (nav_log (final (get_items p (sq_query out) w))))
   <= 2 * max_sites)%Z.
Proof.
  intros Hv. apply validate_query_length in Hv.
  destruct (get_items_final (sq_query out) w)
    as (w0 & Hm & Hi & _ & _ & Hn & _ & _).
  destruct (image_per_capture_final (sq_query out) w0) as (Himg & _).
  destruct (loop_end_requests (sq_query out) w0)
    as (k & st0 & Hk & Hp & (_ & _ & _ & Hhi) & Hn0 & Hm0 & _).
  destruct Hp as (_ & _ & Hsc & Hkeys & _).
  pose proof (first_seen_length (firstn k (sq_query out))) as Hfs.
  rewrite length_firstn in Hfs.
  assert (Hlen : List.length (metadata st0) <= List.length (sq_query out)).
  { replace (List.length (metadata st0))
      with (List.length (keys (metadata st0)))
      by (unfold keys; apply length_map).
    rewrite Hkeys. lia. }
  rewrite Hi, Hm, Hn, Himg, Hm0, Hn0, length_map.
  pose proof (filter_length_le captured (metadata st0)) as Hfl.
  rewrite Hsc in Hhi. repeat split; lia.
Qed.

End BookkeepingFacts.

(** ** The splits behind the name of a file *)

Lemma split_aux_nonempty (sep : string) (s : string) :
  forall k cur, PyStr.split_aux sep k cur s <> [].
Proof.
  induction s as [|c s IH]; intros k cur; cbn [PyStr.split_aux];
    [discriminate |].
  destruct k as [|k]; [| apply IH].
  destruct (PyStr.startswith sep (String c s)); [discriminate | apply IH].
Qed.

(** Splitting on a separator gives one piece when the separator does not
    occur and at least two when it does. *)
Lemma split_aux_pieces (a : ascii) (sep' : string) (s : string) :
  forall cur,
  (PyStr.contains (String a sep') s = false ->
   exists x, PyStr.split_aux (String a sep') 0 cur s = [x]) /\
  (PyStr.contains (String a sep') s = true ->
   exists x y l, PyStr.split_aux (String a sep') 0 cur s = x :: y :: l).
Proof.
  induction s as [|c s IH]; intros cur.
  - split; [intros _; eexists; reflexivity | discriminate].
  - cbn [PyStr.contains PyStr.split_aux].
    destruct (PyStr.startswith (String a sep') (String c s)); cbn [orb].
    + split; [discriminate |]. intros _.
      destruct (PyStr.split_aux (String a sep')
                  (String.length (String a sep') - 1) "" s) as [|y l] eqn:E.
      * now apply split_aux_nonempty in E.
      * eexists _, y, l. reflexivity.
    + apply IH.
Qed.

Lemma split_first (sep s : string) :
  exists x, nth_error (PyStr.split sep s) 0 = Some x.
Proof.
  unfold PyStr.split.
  destruct (PyStr.split_aux sep 0 "" s) as [|x l] eqn:E.
  - now apply split_aux_nonempty in E.
  - now exists x.
Qed.

Lemma split_second (a : ascii) (sep' : string) (s : string) :
  (PyStr.contains (String a sep') s = true ->
   exists y, nth_error (PyStr.split (String a sep') s) 1 = Some y) /\
  (PyStr.contains (String a sep') s = false ->
   nth_error (PyStr.split (String a sep') s) 1 = None).
Proof.
  unfold PyStr.split.
  destruct (split_aux_pieces a sep' s "") as (Hno & Hyes).
  split; intros Hc.
  - destruct (Hyes Hc) as (x & y & l & ->). now exists y.
  - destruct (Hno Hc) as (x & ->). reflexivity.
Qed.

Section NamingFacts.

Context `{Library}.

(** The three courses [filename_from_url] can take. *)
Lemma filename_from_url_cases (now u : string) :
  (PyStr.contains "web.archive.org/web/" u = false /\
   filename_from_url now u
   = Ok (get_domain_name u ++ "-" ++ now ++ "-" ++ url_to_hash u))
  \/
  (exists after,
     PyStr.contains "web.archive.org/web/" u = true /\
     nth_error (PyStr.split "web.archive.org/web/" u) 1 = Some after /\
     PyStr.contains "://" after = false /\
     filename_from_url now u = Raise IndexError)
  \/
  (exists after label stamp,
     PyStr.contains "web.archive.org/web/" u = true /\
     nth_error (PyStr.split "web.archive.org/web/" u) 1 = Some after /\
     PyStr.contains "://" after = true /\
     filename_from_url now u
     = Ok (label ++ "-" ++ stamp ++ "-" ++ url_to_hash u)).
Proof.
  unfold filename_from_url, item.
  destruct (PyStr.contains "web.archive.org/web/" u) eqn:Hc.
  - right.
    destruct (proj1 (split_second "w" "eb.archive.org/web/" u) Hc)
      as (after & Ha).
    destruct (split_first "/" after) as (stamp & Hs).
    rewrite Ha. cbn [bind]. rewrite Hs. cbn [bind].
    destruct (PyStr.contains "://" after) eqn:Hc'.
    + right.
      destruct (proj1 (split_second ":" "//" after) Hc') as (archived & Hr).
      destruct (split_first "/" archived) as (host & Hh).
      rewrite Hr. cbn [bind]. rewrite Hh. cbn [bind].
      exists after. eexists _, _. repeat split; assumption.
    + left.
      rewrite (proj2 (split_second ":" "//" after) Hc'). cbn [bind].
      exists after. repeat split; assumption.
  - left. split; reflexivity.
Qed.

(** X7. [filename_from_url] raises, an [IndexError], exactly on a URL that
    holds [web.archive.org/web/] and has no [://] in what follows its first
    occurrence, up to the next one; a URL without [web.archive.org/web/]
    always gets [ural]'s domain, the time of the call and the hash; and
    every name derived ends with a hyphen and the hash of the URL. *)
Theorem filename_from_url_raises_iff (now u : string) :
  (filename_from_url now u = Raise IndexError <->
   PyStr.contains "web.archive.org/web/" u = true /\
   exists after,
     nth_error (PyStr.split "web.archive.org/web/" u) 1 = Some after /\
     PyStr.contains "://" after = false) /\
  (PyStr.contains "web.archive.org/web/" u = false ->
   filename_from_url now u
   = Ok (get_domain_name u ++ "-" ++ now ++ "-" ++ url_to_hash u)) /\
  (forall name,
     filename_from_url now u = Ok name ->
     exists label stamp, name = label ++ "-" ++ stamp ++ "-" ++ url_to_hash u).
Proof.
  destruct (filename_from_url_cases now u)
    as [(Hc & ->) | [(after & Hc & Ha & Hn & ->)
                    | (after & label & stamp & Hc & Ha & Hy & ->)]].
  - split; [| split].
    + split; [discriminate | intros (Hc' & _); congruence].
    + reflexivity.
    + intros name Hn. injection Hn as Hn. subst name.
      eexists _, _. reflexivity.
  - split; [| split].
    + split; [| reflexivity]. intros _. split; [exact Hc |].
      exists after. split; assumption.
    + congruence.
    + discriminate.
  - split; [| split].
    + split; [discriminate |].
      intros (_ & after' & Ha' & Hn). congruence.
    + congruence.
    + intros name Hn. injection Hn as Hn. subst name.
      eexists _, _. reflexivity.
Qed.

End NamingFacts.

(** ** What the toolbar rewrite changes *)

Module RewriteFacts.

Import PyStr ArchiveRe ArchiveReFacts.

Lemma findall_aux_drop (n : nat) (s : string) :
  findall_aux n s = findall (drop n s).
Proof.
  revert n. induction s as [|c s IH]; intros [|n]; try reflexivity.
  change (findall_aux n s = findall (drop n s)). apply IH.
Qed.

Lemma findall_match (s d r : string) :
  match_at s = Some (d, r) ->
  findall s = (literal ++ d ++ "/") :: findall r.
Proof.
  intros E. destruct (match_at_inv _ _ _ E) as (Hs & _ & _).
  subst s. change (literal ++ d ++ String "/" r)
    with (String "a" ("rchive.org/web/" ++ d ++ String "/" r)) in *.
  rewrite findall_cons, E, findall_aux_drop.
  replace (match_length d - 1)
    with (String.length "rchive.org/web/" + (String.length d + 1))
    by (unfold match_length; simpl; lia).
  rewrite !drop_plus. reflexivity.
Qed.

Lemma sub_length_upto (n : nat) :
  forall s, String.length s <= n ->
  String.length (sub s) = String.length s + 3 * List.length (findall s).
Proof.
  induction n as [|n IH]; intros s Hn.
  - destruct s; [reflexivity | simpl in Hn; lia].
  - destruct s as [|c s]; [reflexivity |].
    destruct (match_at (String c s)) as [[d r]|] eqn:E.
    + rewrite (sub_match _ _ _ E), (findall_match _ _ _ E).
      destruct (match_at_inv _ _ _ E) as (Hs & _ & _).
      rewrite Hs in Hn. rewrite Hs. rewrite !length_append in Hn.
      rewrite !length_append.
      cbn [String.length List.length] in Hn |- *.
      rewrite (IH r) by lia. lia.
    + rewrite (sub_nomatch _ _ E), findall_cons, E.
      cbn [String.length]. rewrite (IH s) by (simpl in Hn; lia). lia.
Qed.

Lemma sub_length (s : string) :
  String.length (sub s) = String.length s + 3 * List.length (findall s).
Proof. apply (sub_length_upto (String.length s)). lia. Qed.

Lemma sub_without_match (s : string) : findall s = [] -> sub s = s.
Proof.
  induction s as [|c s IH]; [reflexivity |].
  rewrite findall_cons, sub_cons.
  destruct (match_at (String c s)) as [[d r]|]; [discriminate |].
  intros Hf. now rewrite (IH Hf).
Qed.

End RewriteFacts.

(** X8. The toolbar rewrite lengthens a URL by three characters, those of
    [if_], for each place where the pattern is found, and by nothing else:
    it leaves a URL as it is exactly when the pattern is found nowhere in
    it. *)
Theorem detoolbar_length (u : string) :
  String.length (detoolbar u)
  = String.length u + 3 * List.length (ArchiveRe.findall u) /\
  (detoolbar u = u <-> ArchiveRe.findall u = []).
Proof.
  assert (Hlen : String.length (detoolbar u)
                 = String.length u + 3 * List.length (ArchiveRe.findall u)).
  { unfold detoolbar. destruct (ArchiveRe.findall u) as [|m ms] eqn:E.
    - cbn. lia.
    - rewrite RewriteFacts.sub_length, E. reflexivity. }
  split; [exact Hlen |]. split.
  - intros He. rewrite He in Hlen.
    destruct (ArchiveRe.findall u); [reflexivity | cbn in Hlen; lia].
  - intros He. unfold detoolbar. now rewrite He.
Qed.

(** X9. A snapshot URL of the Wayback Machine, [https://] or [http://], then
    [web.archive.org/web/], a timestamp of digits, a slash and the address
    of a page in which the pattern is not found, is rewritten to the same
    URL with [if_] after the timestamp. *)
Theorem detoolbar_wayback (scheme stamp page : string) :
  scheme = "https://" \/ scheme = "http://" ->
  stamp <> "" ->
  PyStr.all ArchiveRe.is_digit stamp = true ->
  ArchiveRe.findall page = [] ->
  detoolbar (scheme ++ "web.archive.org/web/" ++ stamp ++ "/" ++ page)
  = scheme ++ "web.archive.org/web/" ++ stamp ++ "if_/" ++ page.
Proof.
  intros Hscheme Hne Hd Hpage.
  assert (Hsub : ArchiveRe.sub
                   (scheme ++ "web.archive.org/web/" ++ stamp ++ "/" ++ page)
                 = scheme ++ "web.archive.org/web/" ++ stamp ++ "if_/" ++ page).
  { change (scheme ++ "web.archive.org/web/" ++ stamp ++ "/" ++ page)
      with (scheme ++ "web." ++ ArchiveRe.literal ++ stamp ++ String "/" page).
    rewrite <- (append_assoc scheme "web.").
    rewrite ArchiveReFacts.sub_not_a_append
      by (destruct Hscheme as [-> | ->]; reflexivity).
    rewrite (ArchiveReFacts.sub_match _ stamp page
               (ArchiveReFacts.match_at_intro stamp page Hne Hd)).
    rewrite (RewriteFacts.sub_without_match page Hpage).
    rewrite append_assoc. reflexivity. }
  assert (Hfind : ArchiveRe.findall
                    (scheme ++ "web.archive.org/web/" ++ stamp ++ "/" ++ page)
                  = [ArchiveRe.literal ++ stamp ++ "/"]).
  { change (scheme ++ "web.archive.org/web/" ++ stamp ++ "/" ++ page)
      with (scheme ++ "web." ++ ArchiveRe.literal ++ stamp ++ String "/" page).
    rewrite <- (append_assoc scheme "web.").
    rewrite ArchiveReFacts.findall_not_a_append
      by (destruct Hscheme as [-> | ->]; reflexivity).
    rewrite (RewriteFacts.findall_match _ stamp page
               (ArchiveReFacts.match_at_intro stamp page Hne Hd)).
    now rewrite Hpage. }
  unfold detoolbar. rewrite Hfind. exact Hsub.
Qed.

(** ** Separators of the query *)

Lemma replace_newline_cons (c : ascii) (s : string) :
  PyStr.replace newline "," (String c s)
  = String (if Ascii.eqb (ascii_of_nat 10) c then ","%char else c)
           (PyStr.replace newline "," s).
Proof.
  unfold PyStr.replace, newline. cbn [PyStr.replace_aux].
  unfold PyStr.startswith. cbn [PyStr.strip_prefix].
  destruct (Ascii.eqb (ascii_of_nat 10) c);
    [destruct s | idtac]; reflexivity.
Qed.

Lemma replace_newline_idempotent (s : string) :
  PyStr.replace newline "," (PyStr.replace newline "," s)
  = PyStr.replace newline "," s.
Proof.
  induction s as [|c s IH]; [reflexivity |].
  rewrite !replace_newline_cons, IH.
  destruct (Ascii.eqb (ascii_of_nat 10) c) eqn:E; [reflexivity |].
  now rewrite E.
Qed.

Section SeparatorFacts.

Context `{Library}.

(** X10. Commas and line breaks separate URLs alike: a query in which every
    line break is replaced by a comma is accepted or refused as the query
    itself is, with the same result. *)
Theorem validate_query_separators (q : query) :
  validate_query
    {| q_query := Some (PyStr.replace newline "," (raw_text q));
       q_rest := q_rest q |}
  = validate_query q.
Proof.
  rewrite !validate_query_unfold.
  unfold survivors, split_urls, raw_text. cbn [q_query q_rest].
  rewrite replace_newline_idempotent.
  destruct (q_query q) as [[|c raw]|]; try reflexivity.
  rewrite replace_newline_cons. reflexivity.
Qed.

End SeparatorFacts.

(** ** More runs on the small browser *)

Section ToyRunsMore.

Import Toy.

(** A URL given twice and another, all captured: nothing failed, and one URL
    is reported as not screenshotted. *)
Lemma failures_reported_witness :
  get_items Toy.params ["https://a.com"; "https://a.com"; "https://b.com"]
    (Toy.fresh 100)
  = Returned (final (get_items Toy.params
                       ["https://a.com"; "https://a.com"; "https://b.com"]
                       (Toy.fresh 100))) /\
  could_not_be_screenshotted
    (final (get_items Toy.params
              ["https://a.com"; "https://a.com"; "https://b.com"]
              (Toy.fresh 100)))
  = Some 1.
Proof.
  assert (Hg : get_items Toy.params
                 ["https://a.com"; "https://a.com"; "https://b.com"]
                 (Toy.fresh 100)
               = Returned (final (get_items Toy.params
                                    ["https://a.com"; "https://a.com";
                                     "https://b.com"] (Toy.fresh 100))))
    by (vm_compute; reflexivity).
  split; [exact Hg |].
  destruct (failures_reported Toy.params
              ["https://a.com"; "https://a.com"; "https://b.com"]
              (Toy.fresh 100) _ Hg) as (_ & Hr).
  rewrite Hr. reflexivity.
Defined.

(** An archive URL without a scheme after the timestamp passes the validity
    test and ends the batch: the URL after it is never requested. *)
Lemma underivable_name_aborts_witness :
  Toy.valid_url "https://web.archive.org/web/2020/example.com" = true /\
  ~ In "https://web.archive.org/web/2020/example.com" ["https://a.com"] /\
  get_items Toy.params
    ["https://a.com"; "https://web.archive.org/web/2020/example.com";
     "https://b.com"] (Toy.fresh 100)
  = Raised IndexError
      (mark_scraped "https://web.archive.org/web/2020/example.com"
         (final (capture_loop Toy.params ["https://a.com"]
                   (initial (Toy.fresh 100))))).
Proof.
  assert (Hn : ~ In "https://web.archive.org/web/2020/example.com"
                    ["https://a.com"])
    by (intros [Hx | []]; discriminate).
  assert (Hl : capture_loop Toy.params ["https://a.com"]
                 (initial (if ignore_cookies Toy.params
                           then enable_firefox_extension (Toy.fresh 100)
                           else Toy.fresh 100))
               = Returned (final (capture_loop Toy.params ["https://a.com"]
                                    (initial (Toy.fresh 100)))))
    by (vm_compute; reflexivity).
  assert (Hi : interrupted
                 (world (final (capture_loop Toy.params ["https://a.com"]
                                  (initial (Toy.fresh 100))))) = false)
    by (vm_compute; reflexivity).
  assert (Hf : filename_from_url
                 (now_strftime
                    (world (final (capture_loop Toy.params ["https://a.com"]
                                     (initial (Toy.fresh 100))))))
                 "https://web.archive.org/web/2020/example.com"
               = Raise IndexError)
    by (vm_compute; reflexivity).
  split; [vm_compute; reflexivity |]. split; [exact Hn |].
  apply (underivable_name_aborts Toy.params ["https://a.com"]
           ["https://b.com"] "https://web.archive.org/web/2020/example.com"
           (Toy.fresh 100) _ Hl Hn Hi Hf).
Defined.

Lemma batch_within_max_sites_witness :
  validate_query
    {| q_query := Some "https://a.com,https://stuck.org"; q_rest := [] |}
  = Ok {| sq_query := ["https://a.com"; "https://stuck.org"]; sq_rest := [] |}
  /\
  (Z.of_nat
     (List.length
        (images (staging (final (get_items Toy.params
                                   ["https://a.com"; "https://stuck.org"]
                                   (Toy.fresh 100))))))
   <= 10)%Z.
Proof.
  assert (Hv : validate_query
                 {| q_query := Some "https://a.com,https://stuck.org";
                    q_rest := [] |}
               = Ok {| sq_query := ["https://a.com"; "https://stuck.org"];
                       sq_rest := [] |})
    by (vm_compute; reflexivity).
  split; [exact Hv |].
  apply (@batch_within_max_sites Toy.library Toy.session Toy.browser
           Toy.params _ _ (Toy.fresh 100) Hv).
Defined.

Lemma detoolbar_wayback_witness :
  PyStr.all ArchiveRe.is_digit "20200101120000" = true /\
  ArchiveRe.findall "https://example.com/a?b=1" = [] /\
  detoolbar
    ("https://" ++ "web.archive.org/web/" ++ "20200101120000" ++ "/"
     ++ "https://example.com/a?b=1")
  = "https://" ++ "web.archive.org/web/" ++ "20200101120000" ++ "if_/"
    ++ "https://example.com/a?b=1".
Proof.
  split; [reflexivity |]. split; [reflexivity |].
  apply (detoolbar_wayback "https://" "20200101120000"
           "https://example.com/a?b=1").
  - left. reflexivity.
  - discriminate.
  - reflexivity.
  - reflexivity.
Defined.

End ToyRunsMore.
